(** * pyserde core: a shallow embedding of [serde/core.py]

    The development follows the layout of the Python module: the runtime
    values and type descriptors the module works on, the structural instance
    check ([is_instance] and its helpers), field metadata derivation
    ([Field.from_dataclass]), name mangling ([Field.mangle],
    [union_func_name], [literal_func_name]), the union tagging policy
    ([Tagging.check]), the global union registry ([GlobalScope]) and the
    coercion helper ([coerce]).

    Python exceptions are explicit: a function that may raise returns a
    [result], and [Raise e] propagates through [bind] exactly as an uncaught
    exception unwinds through the callers. *)

From Stdlib Require Import ZArith String Ascii List Bool Lia DecimalString.
From stdpp Require Import base option list strings gmap.

Local Open Scope string_scope.
Local Open Scope list_scope.

Set Warnings "-register-all".

(** ** Exceptions and results *)

(** The exceptions raised by the modelled code.  All of them derive from
    Python's [Exception], so an [except Exception] clause catches each. *)
Inductive exn : Type :=
| IndexError
| KeyError (key : string)
| TypeError
| SerdeError (msg : string).

Inductive result (A : Type) : Type :=
| Ok (a : A)
| Raise (e : exn).
Arguments Ok {A} a.
Arguments Raise {A} e.

Definition bind {A B : Type} (m : result A) (k : A -> result B) : result B :=
  match m with
  | Ok a => k a
  | Raise e => Raise e
  end.

Notation "'let*' x ':=' m 'in' k" := (bind m (fun x => k))
  (at level 10, x name, m at level 100, k at level 200).

Definition raises {A : Type} (m : result A) : Prop := exists e, m = Raise e.

(** ** Runtime values *)

(** Python objects as far as the module inspects them.  A set is kept in its
    iteration order; an object of a user class carries the method resolution
    order of its class (the class itself first) and its attributes.  Classes
    are identified by their names. *)
Inductive Value : Type :=
| VNone
| VBool (b : bool)
| VInt (z : Z)
| VStr (s : string)
| VList (xs : list Value)
| VSet (xs : list Value)
| VTuple (xs : list Value)
| VDict (kvs : list (Value * Value))
| VObj (mro : list string) (attrs : list (string * Value)).

(** [type(obj).__mro__], by class name. *)
Definition mro_of (obj : Value) : list string :=
  match obj with
  | VNone => ["NoneType"; "object"]
  | VBool _ => ["bool"; "int"; "object"]
  | VInt _ => ["int"; "object"]
  | VStr _ => ["str"; "object"]
  | VList _ => ["list"; "object"]
  | VSet _ => ["set"; "object"]
  | VTuple _ => ["tuple"; "object"]
  | VDict _ => ["dict"; "object"]
  | VObj mro _ => mro
  end.

(** [type(obj).__name__]. *)
Definition type_name (obj : Value) : string :=
  match mro_of obj with
  | c :: _ => c
  | [] => "object"
  end.

(** The builtin nominal check [isinstance(obj, cls)]. *)
Definition isinstance (obj : Value) (cls : string) : bool :=
  existsb (String.eqb cls) (mro_of obj).

(** [obj is None]. *)
Definition is_None (obj : Value) : bool :=
  match obj with
  | VNone => true
  | _ => false
  end.

(** Python's [l[i]] for a non-negative index. *)
Definition getitem {A : Type} (l : list A) (i : nat) : result A :=
  match l !! i with
  | Some x => Ok x
  | None => Raise IndexError
  end.

(** ** Scopes *)

(** A generated function held in a scope: called on an object, it returns a
    value or raises. *)
Abbreviation PyFunc := (Value -> result Value).

Definition TYPE_CHECK : string := "typecheck".
Definition UNION_SE_PREFIX : string := "union_se".
Definition UNION_DE_PREFIX : string := "union_de".
Definition LITERAL_DE_PREFIX : string := "literal_de".

(** [class Scope]: the class the scope is for and the generated functions.
    The remaining members ([defaults], [code], [union_se_args] and the two
    flags) are read by none of the functions below. *)
Record Scope : Type := mkScope {
  cls : string;
  funcs : gmap string PyFunc
}.

(** [d[key](obj)] on a dict of functions: [KeyError] when the key is absent. *)
Definition call_func (d : gmap string PyFunc) (key : string) (obj : Value)
  : result Value :=
  match d !! key with
  | Some f => f obj
  | None => Raise (KeyError key)
  end.

(** ** Type descriptors *)

(** The values a [Literal[...]] type may list, restricted to [None],
    booleans, integers and strings (enum members and bytes are left out). *)
Inductive LitValue : Type :=
| LNone
| LBool (b : bool)
| LInt (z : Z)
| LStr (s : string).

(** Modelled from the spec: the type descriptors of the compatibility layer
    ([serde/compat.py] is not part of the sources), as the tagged union of
    section 3 of the specification.  Bare containers ([List], [Tuple], ...)
    have no arguments; a variable-length tuple [Tuple[T, ...]] has the two
    arguments [T] and the ellipsis marker, as [typing] stores them. *)
Inductive Ty : Type :=
| TClass (name : string)
| TDataclass (name : string) (serde_scope : option Scope)
| TOptional (arg : Ty)
| TUnion (args : list Ty)
| TList (arg : option Ty)
| TSet (arg : option Ty)
| TTuple (args : option (list Ty))
| TDict (args : option (Ty * Ty))
| TGeneric (origin : Ty) (args : list Ty)
| TLiteral (values : list LitValue)
| TNewType (name : string) (supertype : string)
| TEllipsis.

(** Modelled from the spec: the predicates and extractors that [core.py]
    imports from the compatibility layer ("is optional", "is union", "is
    generic container", "is literal", "is new-type alias", "get type
    arguments"), read off the constructors of [Ty]. *)
Module compat.

Definition is_dataclass (typ : Ty) : bool :=
  match typ with TDataclass _ _ => true | _ => false end.
Definition is_opt (typ : Ty) : bool :=
  match typ with TOptional _ => true | _ => false end.
Definition is_union (typ : Ty) : bool :=
  match typ with TUnion _ => true | _ => false end.
Definition is_list (typ : Ty) : bool :=
  match typ with TList _ => true | _ => false end.
Definition is_set (typ : Ty) : bool :=
  match typ with TSet _ => true | _ => false end.
Definition is_tuple (typ : Ty) : bool :=
  match typ with TTuple _ => true | _ => false end.
Definition is_dict (typ : Ty) : bool :=
  match typ with TDict _ => true | _ => false end.
Definition is_generic (typ : Ty) : bool :=
  match typ with TGeneric _ _ => true | _ => false end.
Definition is_literal (typ : Ty) : bool :=
  match typ with TLiteral _ => true | _ => false end.
Definition is_new_type_primitive (typ : Ty) : bool :=
  match typ with TNewType _ _ => true | _ => false end.
Definition is_ellipsis (typ : Ty) : bool :=
  match typ with TEllipsis => true | _ => false end.

Definition is_bare_list (typ : Ty) : bool :=
  match typ with TList None => true | _ => false end.
Definition is_bare_set (typ : Ty) : bool :=
  match typ with TSet None => true | _ => false end.
Definition is_bare_tuple (typ : Ty) : bool :=
  match typ with TTuple None => true | _ => false end.
Definition is_bare_dict (typ : Ty) : bool :=
  match typ with TDict None => true | _ => false end.

(** The type arguments of a descriptor.  The arguments of a literal type
    are values, not types; no function below asks for them (the literal
    mangler receives the values directly). *)
Definition type_args (typ : Ty) : list Ty :=
  match typ with
  | TOptional arg => [arg; TClass "NoneType"]
  | TUnion args => args
  | TList (Some arg) | TSet (Some arg) => [arg]
  | TTuple (Some args) => args
  | TDict (Some (k, v)) => [k; v]
  | TGeneric _ args => args
  | _ => []
  end.

(** [Tuple[T, ...]]: a non-bare tuple with exactly two arguments, the
    second being the ellipsis. *)
Definition is_variable_args (args : list Ty) : bool :=
  match args with
  | [_; TEllipsis] => true
  | _ => false
  end.

Definition is_variable_tuple (typ : Ty) : bool :=
  is_tuple typ && negb (is_bare_tuple typ) && is_variable_args (type_args typ).

(** The unparameterised type of a generic alias. *)
Definition get_origin (typ : Ty) : Ty :=
  match typ with
  | TGeneric origin _ => origin
  | _ => typ
  end.

Definition supertype (typ : Ty) : string :=
  match typ with
  | TNewType _ s => s
  | _ => "object"
  end.

Definition class_name (typ : Ty) : string :=
  match typ with
  | TClass c | TDataclass c _ | TNewType c _ => c
  | _ => "object"
  end.

Definition serde_scope_of (typ : Ty) : option Scope :=
  match typ with
  | TDataclass _ s => s
  | _ => None
  end.

End compat.

(** ** The structural instance check *)

(** The loops of the helpers, over a check that may raise. *)
Section Loops.
Context {A : Type} (check : A -> result bool).

(** [for a in l: if check(a): return True] followed by [return False]. *)
Fixpoint first_match (l : list A) : result bool :=
  match l with
  | [] => Ok false
  | a :: l' => let* b := check a in if b then Ok true else first_match l'
  end.

(** [for a in l: if not check(a): return False]; [Ok true] stands for the
    loop running to its end, after which the caller goes on. *)
Fixpoint all_match (l : list A) : result bool :=
  match l with
  | [] => Ok true
  | a :: l' => let* b := check a in if b then all_match l' else Ok false
  end.
End Loops.

(** [for i, arg in enumerate(args): if not check(obj[i], arg): return False]
    followed by [return True], started at index [i]. *)
Fixpoint enumerate_loop {A B : Type} (check : A -> B -> result bool)
    (obj : list A) (i : nat) (args : list B) : result bool :=
  match args with
  | [] => Ok true
  | arg :: args' =>
      let* v := getitem obj i in
      let* b := check v arg in
      if b then enumerate_loop check obj (S i) args' else Ok false
  end.

(** The record branch of [is_instance]: the synthesized type check is called
    when the class has a scope, any exception of it gives [False], and the
    nominal check decides otherwise. *)
Definition dataclass_instance (obj : Value) (c : string)
    (serde_scope : option Scope) : result bool :=
  match serde_scope with
  | Some s =>
      match call_func (funcs s) TYPE_CHECK obj with
      | Raise _ => Ok false
      | Ok _ => Ok (isinstance obj c)
      end
  | None => Ok (isinstance obj c)
  end.

(** [is_instance], by recursion on the type descriptor.  Each branch is the
    body of the helper the Python function dispatches to; the helpers are
    restated under their own names below and [is_instance_dispatch] gives
    the function in the shape of the source. *)
Fixpoint is_instance (obj : Value) (typ : Ty) {struct typ} : result bool :=
  match typ with
  | TDataclass c serde_scope => dataclass_instance obj c serde_scope
  | TOptional opt_arg =>
      if is_None obj then Ok true else is_instance obj opt_arg
  | TUnion args => first_match (fun arg => is_instance obj arg) args
  | TList arg =>
      match obj with
      | VList xs =>
          match xs, arg with
          | [], _ | _, None => Ok true
          | x :: _, Some list_arg => is_instance x list_arg
          end
      | _ => Ok false
      end
  | TSet arg =>
      match obj with
      | VSet xs =>
          match xs, arg with
          | [], _ | _, None => Ok true
          | x :: _, Some set_arg => is_instance x set_arg
          end
      | _ => Ok false
      end
  | TTuple args =>
      match obj with
      | VTuple xs =>
          match args with
          | None => Ok true
          | Some targs =>
              let* b :=
                if compat.is_variable_args targs then
                  match targs with
                  | arg :: _ => all_match (fun v => is_instance v arg) xs
                  | [] => Raise IndexError
                  end
                else Ok true in
              if negb b then Ok false
              else if (length xs =? 0)%nat then Ok true
              else enumerate_loop (fun v arg => is_instance v arg) xs 0 targs
          end
      | _ => Ok false
      end
  | TDict args =>
      match obj with
      | VDict kvs =>
          match kvs, args with
          | [], _ | _, None => Ok true
          | (k, v) :: _, Some (ktyp, vtyp) =>
              let* b := is_instance k ktyp in
              if b then is_instance v vtyp else Ok false
          end
      | _ => Ok false
      end
  | TGeneric origin _ => is_instance obj origin
  | TLiteral _ => Ok true
  | TNewType _ inner => Ok (isinstance obj inner)
  | TEllipsis => Ok true
  | TClass c => Ok (isinstance obj c)
  end.

(** *** The helpers under their source names *)

Definition is_opt_instance (obj : Value) (typ : Ty) : result bool :=
  if is_None obj then Ok true
  else
    let* opt_arg := getitem (compat.type_args typ) 0 in
    is_instance obj opt_arg.

Definition is_union_instance (obj : Value) (typ : Ty) : result bool :=
  first_match (fun arg => is_instance obj arg) (compat.type_args typ).

Definition is_list_instance (obj : Value) (typ : Ty) : result bool :=
  match obj with
  | VList xs =>
      if (length xs =? 0)%nat || compat.is_bare_list typ then Ok true
      else
        let* list_arg := getitem (compat.type_args typ) 0 in
        (* for speed reasons we just check the type of the 1st element *)
        let* x := getitem xs 0 in
        is_instance x list_arg
  | _ => Ok false
  end.

Definition is_set_instance (obj : Value) (typ : Ty) : result bool :=
  match obj with
  | VSet xs =>
      if (length xs =? 0)%nat || compat.is_bare_set typ then Ok true
      else
        let* set_arg := getitem (compat.type_args typ) 0 in
        let* x := getitem xs 0 in
        is_instance x set_arg
  | _ => Ok false
  end.

Definition is_tuple_instance (obj : Value) (typ : Ty) : result bool :=
  match obj with
  | VTuple xs =>
      let* b :=
        if compat.is_variable_tuple typ then
          let* arg := getitem (compat.type_args typ) 0 in
          all_match (fun v => is_instance v arg) xs
        else Ok true in
      if negb b then Ok false
      else if (length xs =? 0)%nat || compat.is_bare_tuple typ then Ok true
      else
        enumerate_loop (fun v arg => is_instance v arg) xs 0
          (compat.type_args typ)
  | _ => Ok false
  end.

Definition is_dict_instance (obj : Value) (typ : Ty) : result bool :=
  match obj with
  | VDict kvs =>
      if (length kvs =? 0)%nat || compat.is_bare_dict typ then Ok true
      else
        let* ktyp := getitem (compat.type_args typ) 0 in
        let* vtyp := getitem (compat.type_args typ) 1 in
        match kvs with
        | (k, v) :: _ =>
            (* for speed reasons we just check the type of the 1st element *)
            let* b := is_instance k ktyp in
            if b then is_instance v vtyp else Ok false
        | [] => Ok false
        end
  | _ => Ok false
  end.

Definition is_generic_instance (obj : Value) (typ : Ty) : result bool :=
  is_instance obj (compat.get_origin typ).

(** [is_instance] in the shape of the Python function: the chain of tests on
    the type, each branch calling its helper. *)
Definition is_instance_body (obj : Value) (typ : Ty) : result bool :=
  if compat.is_dataclass typ then
    dataclass_instance obj (compat.class_name typ) (compat.serde_scope_of typ)
  else if compat.is_opt typ then is_opt_instance obj typ
  else if compat.is_union typ then is_union_instance obj typ
  else if compat.is_list typ then is_list_instance obj typ
  else if compat.is_set typ then is_set_instance obj typ
  else if compat.is_tuple typ then is_tuple_instance obj typ
  else if compat.is_dict typ then is_dict_instance obj typ
  else if compat.is_generic typ then is_generic_instance obj typ
  else if compat.is_literal typ then Ok true
  else if compat.is_new_type_primitive typ then
    Ok (isinstance obj (compat.supertype typ))
  else if compat.is_ellipsis typ then Ok true
  else Ok (isinstance obj (compat.class_name typ)).

(** ** Strings *)

(** A Python [str] is a [string] whose characters are code points below 256,
    one [ascii] per character. *)

(** The double quote character, for messages that contain it. *)
Definition dquote : string := String (ascii_of_nat 34) EmptyString.

Fixpoint string_map (f : ascii -> ascii) (s : string) : string :=
  match s with
  | EmptyString => EmptyString
  | String c s' => String (f c) (string_map f s')
  end.

Definition in_range (lo hi : nat) (c : ascii) : bool :=
  (lo <=? nat_of_ascii c)%nat && (nat_of_ascii c <=? hi)%nat.

(** Membership in the character class [A-Za-z0-9]. *)
Definition is_alnum (c : ascii) : bool :=
  in_range 65 90 c || in_range 97 122 c || in_range 48 57 c.

(** [re.sub(r"[^A-Za-z0-9]", "_", s)]: every character outside the class is
    replaced by an underscore, the others are kept. *)
Definition re_sub_non_alnum (s : string) : string :=
  string_map (fun c => if is_alnum c then c else "_"%char) s.

(** The sanitizer in the words of the specification: every character outside
    [A-Za-z0-9_] is replaced by an underscore. *)
Definition sanitize_spec (s : string) : string :=
  string_map
    (fun c => if is_alnum c || Ascii.eqb c "_"%char then c else "_"%char) s.

(** [str(z)] for an integer. *)
Definition str_of_Z (z : Z) : string := NilZero.string_of_int (Z.to_int z).

(** [str(a)] and [type(a).__name__] for a literal value. *)
Definition lit_str (a : LitValue) : string :=
  match a with
  | LNone => "None"
  | LBool true => "True"
  | LBool false => "False"
  | LInt z => str_of_Z z
  | LStr s => s
  end.

Definition lit_type (a : LitValue) : Ty :=
  match a with
  | LNone => TClass "NoneType"
  | LBool _ => TClass "bool"
  | LInt _ => TClass "int"
  | LStr _ => TClass "str"
  end.

(** Modelled from the spec: the canonical type name of the compatibility
    layer ([compat.typename] is not part of the sources), in the notation the
    doctest of [union_func_name] shows: [List[str]] for a list of strings, a
    class by its name.  The results below take the naming function as a
    parameter; this one instantiates them. *)
Fixpoint typename (typ : Ty) : string :=
  let names := fix names (l : list Ty) : list string :=
    match l with
    | [] => []
    | t :: l' => typename t :: names l'
    end in
  match typ with
  | TClass c | TDataclass c _ => c
  | TOptional arg => "Optional[" +:+ typename arg +:+ "]"
  | TUnion args => "Union[" +:+ String.concat ", " (names args) +:+ "]"
  | TList None => "List"
  | TList (Some arg) => "List[" +:+ typename arg +:+ "]"
  | TSet None => "Set"
  | TSet (Some arg) => "Set[" +:+ typename arg +:+ "]"
  | TTuple None => "Tuple"
  | TTuple (Some args) => "Tuple[" +:+ String.concat ", " (names args) +:+ "]"
  | TDict None => "Dict"
  | TDict (Some (k, v)) => "Dict[" +:+ typename k +:+ ", " +:+ typename v +:+ "]"
  | TGeneric origin _ => typename origin
  | TLiteral values => "Literal[" +:+ String.concat ", " (map lit_str values) +:+ "]"
  | TNewType _ inner => inner
  | TEllipsis => "..."
  end.

(** ** Name mangling *)

Section Names.
Variable typename : Ty -> string.

(** [union_func_name(prefix, union_args)]. *)
Definition union_func_name (prefix : string) (union_args : list Ty) : string :=
  re_sub_non_alnum
    (prefix +:+ "_" +:+ String.concat "_" (map typename union_args)).

(** [literal_func_name(literal_args)]. *)
Definition literal_func_name (literal_args : list LitValue) : string :=
  re_sub_non_alnum
    (LITERAL_DE_PREFIX +:+ "_" +:+
     String.concat "_"
       (map (fun a => lit_str a +:+ "_" +:+ typename (lit_type a)) literal_args)).

End Names.

(** ** Field metadata *)

(** [dataclasses.MISSING] or a value. *)
Inductive Slot : Type :=
| MISSING
| Given (v : Value).

(** The function objects that reach a field: the module's [skip_if_false],
    [functools.partial(skip_if_default, default=d)], and functions of the
    user, told apart by their names. *)
Inductive Callable : Type :=
| fn_skip_if_false
| partial_skip_if_default (default : Slot)
| fn_user (qualname : string).

(** What a metadata entry may hold: a plain value or a function object. *)
Inductive Obj : Type :=
| OValue (v : Value)
| OFunction (fn : Callable).

(** [bool(v)]: the truth value of a plain value. *)
Definition py_bool (v : Value) : bool :=
  match v with
  | VNone => false
  | VBool b => b
  | VInt z => negb (z =? 0)%Z
  | VStr s => negb (String.eqb s "")
  | VList xs | VSet xs | VTuple xs => negb (length xs =? 0)%nat
  | VDict kvs => negb (length kvs =? 0)%nat
  | VObj _ _ => true
  end.

(** The truth value of a metadata entry; a function object is true. *)
Definition truthy (o : Obj) : bool :=
  match o with
  | OValue v => py_bool v
  | OFunction _ => true
  end.

(** The builtin [callable]. *)
Definition callable (o : Obj) : bool :=
  match o with
  | OValue _ => false
  | OFunction _ => true
  end.

(** [d.get(key, dflt)] and [d.get(key)] on a metadata mapping. *)
Definition get_or (d : gmap string Obj) (key : string) (dflt : Obj) : Obj :=
  match d !! key with
  | Some o => o
  | None => dflt
  end.

Definition get (d : gmap string Obj) (key : string) : Obj :=
  get_or d key (OValue VNone).

(** [a or b] on two optional objects of a class without [__bool__] and
    [__len__]: [None] is false, every instance is true. *)
Definition or_else {A : Type} (a b : option A) : option A :=
  match a with
  | Some _ => a
  | None => b
  end.

(** [class Func]: a function with its mangled name. *)
Record Func : Type := mkFunc {
  inner : Obj;
  mangeld : string
}.

Module dataclasses.

(** [dataclasses.Field], the raw field. *)
Record Field : Type := mkField {
  name : string;
  type : Ty;
  default : Slot;
  default_factory : option Callable;
  init : bool;
  repr : bool;
  hash : option bool;
  compare : bool;
  metadata : gmap string Obj
}.

End dataclasses.

Module Field.

(** [serde.core.Field]. *)
Record t : Type := mk {
  type : Ty;
  name : string;
  default : Slot;
  default_factory : option Callable;
  init : bool;
  repr : bool;
  hash : option bool;
  compare : bool;
  metadata : gmap string Obj;
  case : option string;
  alias : Obj;
  rename : Obj;
  skip : Obj;
  skip_if : option Func;
  skip_if_false : option bool;
  skip_if_default : option bool;
  serializer : option Func;
  deserializer : option Func;
  flatten : Obj;
  parent : option Ty
}.

(** [Field.mangle(field, name)]: [f'{field.name}_{name}']. *)
Definition mangle (field : dataclasses.Field) (name : string) : string :=
  dataclasses.name field +:+ "_" +:+ name.

(** An instance of the empty class [FlattenOpts]. *)
Definition FlattenOpts : Obj := OValue (VObj ["FlattenOpts"; "object"] []).

(** [flatten is True]. *)
Definition is_True (o : Obj) : bool :=
  match o with
  | OValue (VBool true) => true
  | _ => false
  end.

(** [Field.from_dataclass(f, parent)]. *)
Definition from_dataclass (f : dataclasses.Field) (parent : option Ty) : t :=
  let md := dataclasses.metadata f in
  let skip_if_false_func : option Func :=
    if truthy (get md "serde_skip_if_false")
    then Some (mkFunc (OFunction fn_skip_if_false) (mangle f "skip_if_false"))
    else None in
  let skip_if_default_func : option Func :=
    if truthy (get md "serde_skip_if_default")
    then
      let skip_if_def := partial_skip_if_default (dataclasses.default f) in
      Some (mkFunc (OFunction skip_if_def) (mangle f "skip_if_default"))
    else None in
  let skip_if : option Func :=
    if truthy (get md "serde_skip_if")
    then
      let func := get md "serde_skip_if" in
      if callable func then Some (mkFunc func (mangle f "skip_if")) else None
    else None in
  let serializer : option Func :=
    let func := get md "serde_serializer" in
    if truthy func then Some (mkFunc func (mangle f "serializer")) else None in
  let deserializer : option Func :=
    let func := get md "serde_deserializer" in
    if truthy func then Some (mkFunc func (mangle f "deserializer")) else None in
  let flatten :=
    let flatten := get md "serde_flatten" in
    if is_True flatten then FlattenOpts else flatten in
  {| type := dataclasses.type f;
     name := dataclasses.name f;
     default := dataclasses.default f;
     default_factory := dataclasses.default_factory f;
     init := dataclasses.init f;
     repr := dataclasses.repr f;
     hash := dataclasses.hash f;
     compare := dataclasses.compare f;
     metadata := md;
     case := None;
     rename := get md "serde_rename";
     alias := get_or md "serde_alias" (OValue (VList []));
     skip := get md "serde_skip";
     skip_if := or_else skip_if (or_else skip_if_false_func skip_if_default_func);
     skip_if_false := None;
     skip_if_default := None;
     serializer := serializer;
     deserializer := deserializer;
     flatten := flatten;
     parent := parent |}.

End Field.

(** ** Union tagging *)

Module Tagging.

Inductive Kind : Type :=
| External
| Internal
| Adjacent
| Untagged.

Definition Kind_eqb (a b : Kind) : bool :=
  match a, b with
  | External, External | Internal, Internal
  | Adjacent, Adjacent | Untagged, Untagged => true
  | _, _ => false
  end.

(** [class Tagging]; [tag] and [content] default to [None], [kind] to
    [External]. *)
Record t : Type := mk {
  tag : option string;
  content : option string;
  kind : Kind
}.

Definition is_external (self : t) : bool := Kind_eqb (kind self) External.
Definition is_internal (self : t) : bool := Kind_eqb (kind self) Internal.
Definition is_adjacent (self : t) : bool := Kind_eqb (kind self) Adjacent.
Definition is_untagged (self : t) : bool := Kind_eqb (kind self) Untagged.

Definition is_none {A : Type} (o : option A) : bool :=
  match o with
  | None => true
  | Some _ => false
  end.

Definition internal_message : string :=
  dquote +:+ "tag" +:+ dquote +:+ " must be specified in InternalTagging".

Definition adjacent_message : string :=
  dquote +:+ "tag" +:+ dquote +:+ " and " +:+ dquote +:+ "content" +:+ dquote
  +:+ " must be specified in AdjacentTagging".

(** [Tagging.check]: returns [None] or raises [SerdeError]. *)
Definition check (self : t) : result unit :=
  if is_internal self && is_none (tag self) then
    Raise (SerdeError internal_message)
  else if is_adjacent self && (is_none (tag self) || is_none (content self)) then
    Raise (SerdeError adjacent_message)
  else Ok tt.

Definition ExternalTagging : t := mk None None External.
Definition InternalTagging (tag content : option string) : t :=
  mk tag content Internal.
Definition AdjacentTagging (tag content : option string) : t :=
  mk tag content Adjacent.
Definition Untagged_ : t := mk None None Untagged.
Definition DefaultTagging : t := ExternalTagging.

End Tagging.

(** ** The global registry of union wrappers *)

Module GlobalScope.

(** A class object built by [dataclasses.make_dataclass]: its name, its
    fields, and the scope that registration attaches as [__serde__]. *)
Record ClassObject : Type := mkClass {
  class_name : string;
  class_fields : list (string * Ty);
  serde_scope : option Scope
}.

(** [class GlobalScope]: wrapper classes by mangled name.  The dict holds
    references; the class objects live in the heap of the runtime. *)
Record t : Type := mk {
  classes : gmap string nat
}.

(** The process state: class objects by address, the next free address, and
    the module-level [GLOBAL_SCOPE]. *)
Record Runtime : Type := mkRuntime {
  heap : gmap nat ClassObject;
  next_addr : nat;
  GLOBAL_SCOPE : t
}.

Definition make_dataclass (cls_name : string) (fields : list (string * Ty))
  : ClassObject :=
  mkClass cls_name fields None.

Section Registry.
Variable typename : Ty -> string.
(** The class decorators of the serializer and deserializer modules, which
    are not part of the sources: each updates the class object in place and
    leaves the registry dict alone. *)
Variable serialize deserialize : ClassObject -> ClassObject.

(** The [serde] decorator applied to a class; a class made by
    [make_dataclass] already is a dataclass, so [should_impl_dataclass] is
    false for it and only the two decorators run. *)
Definition serde (c : ClassObject) : ClassObject :=
  deserialize (serialize c).

(** [GlobalScope.get_union]: [self.classes.get(class_name)]. *)
Definition get_union (rt : Runtime) (cls : Ty) : option nat :=
  let class_name := union_func_name typename "global" (compat.type_args cls) in
  classes (GLOBAL_SCOPE rt) !! class_name.

(** [GlobalScope.add_union]: the new class object is allocated, registered
    with [serde] and stored under the mangled name; its reference is
    returned. *)
Definition add_union (rt : Runtime) (cls : Ty) : Runtime * nat :=
  let class_name := union_func_name typename "global" (compat.type_args cls) in
  let wrapper_dataclass := next_addr rt in
  let object := serde (make_dataclass class_name [("v", cls)]) in
  ({| heap := <[wrapper_dataclass := object]> (heap rt);
      next_addr := S (next_addr rt);
      GLOBAL_SCOPE :=
        {| classes := <[class_name := wrapper_dataclass]> (classes (GLOBAL_SCOPE rt)) |} |},
   wrapper_dataclass).

(** [getattr(wrapper_dataclass, SERDE_SCOPE)] through a reference. *)
Definition scope_at (rt : Runtime) (ref : nat) : option Scope :=
  match heap rt !! ref with
  | Some c => serde_scope c
  | None => None
  end.

End Registry.

End GlobalScope.

(** ** Type check flavours and coercion *)

Module TypeCheck.

Inductive Kind : Type :=
| NoCheck
| Coerce
| Strict.

Record t : Type := mk { kind : Kind }.

Definition is_strict (self : t) : bool :=
  match kind self with Strict => true | _ => false end.

Definition is_coerce (self : t) : bool :=
  match kind self with Coerce => true | _ => false end.

End TypeCheck.

(** A class as [coerce] uses it: its name and what calling it on one argument
    does. *)
Record Class : Type := mkPyClass {
  cname : string;
  construct : Value -> result Value
}.

(** [is_coercible(typ, obj)]. *)
Definition is_coercible (typ : Class) (obj : Value) : bool :=
  if is_None obj then false else true.

(** [coerce(typ, obj)]: [typ(obj) if is_coercible(typ, obj) else obj]. *)
Definition coerce (typ : Class) (obj : Value) : result Value :=
  if is_coercible typ obj then construct typ obj else Ok obj.

(** A dataclass with the single field [v], as
    [@dataclass class Wrap: v: Any]: calling it stores the argument. *)
Definition Wrap : Class :=
  mkPyClass "Wrap" (fun x => Ok (VObj ["Wrap"; "object"] [("v", x)])).

(** ** Further functions of the module *)

(** *** Descriptors the instance check is total on *)


(** *** Declaring a field *)

(** The keyword arguments of [field]; [None] is [OValue VNone].  A missing or
    empty [metadata] argument is the empty mapping. *)
Module Kw.
Record t : Type := mk {
  rename : Obj;
  alias : Obj;
  skip : Obj;
  skip_if : Obj;
  skip_if_false : Obj;
  skip_if_default : Obj;
  serializer : Obj;
  deserializer : Obj;
  flatten : Obj;
  metadata : gmap string Obj
}.
End Kw.

(** [o is not None]. *)
Definition is_not_None (o : Obj) : bool :=
  match o with
  | OValue VNone => false
  | _ => true
  end.

(** [if cond: metadata[key] = o]. *)
Definition set_when (cond : bool) (key : string) (o : Obj)
    (metadata : gmap string Obj) : gmap string Obj :=
  if cond then <[key := o]> metadata else metadata.

(** [field(..., metadata=..., **kwargs)]: the metadata mapping is filled from
    the keyword arguments and handed to [dataclasses.field].  [declared]
    carries what the remaining arguments and the class body give the raw
    field: its name and type, default, default factory and flags. *)
Definition field (kw : Kw.t) (declared : dataclasses.Field) : dataclasses.Field :=
  let metadata := Kw.metadata kw in
  let metadata :=
    set_when (is_not_None (Kw.rename kw)) "serde_rename" (Kw.rename kw) metadata in
  let metadata :=
    set_when (is_not_None (Kw.alias kw)) "serde_alias" (Kw.alias kw) metadata in
  let metadata :=
    set_when (is_not_None (Kw.skip kw)) "serde_skip" (Kw.skip kw) metadata in
  let metadata :=
    set_when (is_not_None (Kw.skip_if kw)) "serde_skip_if" (Kw.skip_if kw) metadata in
  let metadata :=
    set_when (is_not_None (Kw.skip_if_false kw)) "serde_skip_if_false"
      (Kw.skip_if_false kw) metadata in
  let metadata :=
    set_when (is_not_None (Kw.skip_if_default kw)) "serde_skip_if_default"
      (Kw.skip_if_default kw) metadata in
  let metadata :=
    set_when (truthy (Kw.serializer kw)) "serde_serializer"
      (Kw.serializer kw) metadata in
  let metadata :=
    set_when (truthy (Kw.deserializer kw)) "serde_deserializer"
      (Kw.deserializer kw) metadata in
  let metadata :=
    set_when (truthy (Kw.flatten kw)) "serde_flatten" (Kw.flatten kw) metadata in
  dataclasses.mkField
    (dataclasses.name declared) (dataclasses.type declared)
    (dataclasses.default declared) (dataclasses.default_factory declared)
    (dataclasses.init declared) (dataclasses.repr declared)
    (dataclasses.hash declared) (dataclasses.compare declared)
    metadata.

(** The metadata keys [field] may write. *)
Definition serde_keys : list string :=
  ["serde_rename"; "serde_alias"; "serde_skip"; "serde_skip_if";
   "serde_skip_if_false"; "serde_skip_if_default"; "serde_serializer";
   "serde_deserializer"; "serde_flatten"].

(** The purposes [Field.from_dataclass] mangles names for. *)
Definition purposes : list string :=
  ["skip_if_false"; "skip_if_default"; "skip_if"; "serializer"; "deserializer"].

(** *** Back to a raw field, and the wire name *)

(** What a call of [Field.to_dataclass] ends in. *)
Inductive rebuilt : Type :=
| Rebuilt (f : dataclasses.Field)
| RaisedTypeError
| RaisedAssertionError.

(** [Field.to_dataclass].  The raw field is built first, by calling
    [dataclasses.Field] with the seven arguments [default],
    [default_factory], [init], [repr], [hash], [compare] and [metadata].
    From Python 3.10 on that constructor has the further required parameter
    [kw_only], which the call does not give, and the call raises
    [TypeError]; [kw_only_required] tells which constructor the interpreter
    has.  Then [assert self.name] fails on an empty name, and name and type
    are assigned. *)
Definition to_dataclass (kw_only_required : bool) (self : Field.t) : rebuilt :=
  if kw_only_required then RaisedTypeError
  else if String.eqb (Field.name self) "" then RaisedAssertionError
  else
    Rebuilt (dataclasses.mkField (Field.name self) (Field.type self)
               (Field.default self) (Field.default_factory self)
               (Field.init self) (Field.repr self) (Field.hash self)
               (Field.compare self) (Field.metadata self)).

(** The truth value of an optional string: [None] and the empty string are
    false. *)
Definition truthy_str (s : option string) : bool :=
  match s with
  | Some s => negb (String.eqb s "")
  | None => false
  end.

(** [str(s)] for an optional string. *)
Definition str_of_opt (s : option string) : string :=
  match s with
  | Some s => s
  | None => "None"
  end.

Section Conv.
(** [getattr(casefy, case, None)]: the case conversions of the [casefy]
    package by name, which is not part of the repository. *)
Variable casefy : string -> option (string -> string).

Definition unknown_case_message (f : Field.t) : string :=
  "Unkown case type: " +:+ str_of_opt (Field.case f) +:+
  ". Pass the name of case supported by 'casefy' package.".

(** [conv(f, case)]: the name after case conversion, overridden by a true
    [rename]. *)
Definition conv (f : Field.t) (case : option string) : result Obj :=
  let name := OValue (VStr (Field.name f)) in
  let* name :=
    match case with
    | Some c =>
        if String.eqb c "" then Ok name
        else
          match casefy c with
          | None => Raise (SerdeError (unknown_case_message f))
          | Some casef => Ok (OValue (VStr (casef (Field.name f))))
          end
    | None => Ok name
    end in
  let name := if truthy (Field.rename f) then Field.rename f else name in
  if negb (is_not_None name) then Raise (SerdeError "Field name is None.")
  else Ok name.

(** [Field.conv_name(case)]: [conv(self, case or self.case)]. *)
Definition conv_name (self : Field.t) (case : option string) : result Obj :=
  conv self (if truthy_str case then case else Field.case self).

End Conv.

(** *** Does a class still need the dataclass decorator *)

(** What [should_impl_dataclass] reads of a class: whether it is a dataclass
    ([dataclasses.is_dataclass]), the keys of its [__annotations__] in order
    ([[]] when there are none), and the names of [dataclasses.fields(cls)];
    [compat.dataclass_fields] lists the same fields with their types
    resolved. *)
Record ClassInfo : Type := mkClassInfo {
  info_is_dataclass : bool;
  info_annotations : list string;
  info_field_names : list string
}.

Definition mem (s : string) (l : list string) : bool :=
  existsb (String.eqb s) l.

(** [should_impl_dataclass(cls)]. *)
Definition should_impl_dataclass (cls : ClassInfo) : bool :=
  if negb (info_is_dataclass cls) then true
  else
    let annotations := info_annotations cls in
    if (length annotations =? 0)%nat then false
    else if negb (length annotations =? length (info_field_names cls))%nat then true
    else
      let field_names := info_field_names cls in
      if existsb (fun field_name => negb (mem field_name field_names)) annotations
      then true
      else false.

(** What the function reads of a class built by [make_dataclass]: it is a
    dataclass whose annotations and fields are the given ones. *)
Definition info_of (c : GlobalScope.ClassObject) : ClassInfo :=
  mkClassInfo true (map fst (GlobalScope.class_fields c))
    (map fst (GlobalScope.class_fields c)).

(** *** The banner lines of [Scope.__repr__] *)

Fixpoint spaces (n : nat) : string :=
  match n with
  | O => ""
  | S n' => String " " (spaces n')
  end.

(** [Scope._justify(s, length)]: [int((50 - len(s)) / 2)] blanks, when that
    is positive, before [s]; the [length] argument is not read. *)
Definition _justify (s : string) (length : Z) : string :=
  let white_spaces := Z.quot (50 - Z.of_nat (String.length s)) 2 in
  spaces (Z.to_nat (if (white_spaces >? 0)%Z then white_spaces else 0%Z)) +:+ s.

(** *** Function synthesis *)

Section Synthesis.
(** The builtin [exec] on a source text and a globals dict (which it
    updates), and [black.format_str]; either may raise. *)
Variable exec : string -> gmap string PyFunc -> result (gmap string PyFunc).
Variable format_str : string -> result string.

(** [gen(code, globals)] under the setting [debug]: the code is reformatted
    in debug mode, a failure of the formatter being ignored, then executed;
    the code that ran is returned with the updated globals. *)
Definition gen (debug : bool) (code : string) (globals : gmap string PyFunc)
  : result (string * gmap string PyFunc) :=
  let code :=
    if debug then
      match format_str code with
      | Ok formatted => formatted
      | Raise _ => code
      end
    else code in
  let* globals := exec code globals in
  Ok (code, globals).

(** [add_func(serde_scope, func_name, func_code, globals)]; the [code]
    member of the scope is carried beside the record.  The result is the
    updated scope, its [code] member and the globals. *)
Definition add_func (debug : bool) (serde_scope : Scope)
    (scope_code : gmap string string) (func_name func_code : string)
    (globals : gmap string PyFunc)
  : result (Scope * gmap string string * gmap string PyFunc) :=
  let* generated := gen debug func_code globals in
  let code := generated.1 in
  let globals := generated.2 in
  let* func := match globals !! func_name with
               | Some func => Ok func
               | None => Raise (KeyError func_name)
               end in
  let serde_scope := mkScope (cls serde_scope) (<[func_name := func]> (funcs serde_scope)) in
  let scope_code := if debug then <[func_name := code]> scope_code else scope_code in
  Ok (serde_scope, scope_code, globals).

End Synthesis.

(** *** Registry invariant *)

(** Every class object lies below the next free address, and every name in
    the registry refers to a class object. *)
Definition registry_wf (rt : GlobalScope.Runtime) : Prop :=
  (forall a, is_Some (GlobalScope.heap rt !! a) -> (a < GlobalScope.next_addr rt)%nat) /\
  (forall k a, GlobalScope.classes (GlobalScope.GLOBAL_SCOPE rt) !! k = Some a ->
     is_Some (GlobalScope.heap rt !! a)).

(** ** Sample inputs *)

(** The builtin classes [int], [str] and [bool] as type descriptors. *)
Definition int_ : Ty := TClass "int".
Definition str_ : Ty := TClass "str".
Definition bool_ : Ty := TClass "bool".

(** A raw field [v] with both a skip-on-false flag and an explicit
    predicate. *)
Definition both_configured : dataclasses.Field :=
  dataclasses.mkField "v" (TList (Some int_)) MISSING None true true None true
    (<["serde_skip_if" := OFunction (fn_user "is_empty")]>
       (<["serde_skip_if_false" := OValue (VBool true)]> ∅)).

(** A registration that attaches a scope holding a type check function. *)
Definition attach_scope (c : GlobalScope.ClassObject) : GlobalScope.ClassObject :=
  GlobalScope.mkClass (GlobalScope.class_name c) (GlobalScope.class_fields c)
    (Some (mkScope (GlobalScope.class_name c)
             {[ TYPE_CHECK := fun _ : Value => Ok VNone ]})).

Definition empty_runtime : GlobalScope.Runtime :=
  GlobalScope.mkRuntime ∅ 0 (GlobalScope.mk ∅).

(** [None] as a keyword argument, and two declarations: the field [id] of
    the specification's scenario, renamed to [ID], with a skip predicate and
    an entry of the caller's own in the metadata. *)
Definition none : Obj := OValue VNone.

Definition id_kw : Kw.t :=
  Kw.mk (OValue (VStr "ID")) none none (OFunction (fn_user "is_zero"))
    (OValue (VBool true)) none none none none
    {[ "doc" := OValue (VStr "primary key") ]}.

Definition flag_off_kw : Kw.t :=
  Kw.mk none none none none (OValue (VBool false)) none none none none ∅.

Definition declared_id : dataclasses.Field :=
  dataclasses.mkField "id" int_ MISSING None true true None true ∅.

(** An [exec] that defines one function, one that defines nothing, and a
    formatter that fails. *)
Definition exec_defining (func_name : string) (func : PyFunc)
    (code : string) (globals : gmap string PyFunc) : result (gmap string PyFunc) :=
  Ok (<[func_name := func]> globals).

Definition exec_nothing (code : string) (globals : gmap string PyFunc)
  : result (gmap string PyFunc) :=
  Ok globals.

Definition format_fails (code : string) : result string := Raise TypeError.

(** A type check function that rejects everything but integers. *)
Definition only_int (obj : Value) : result Value :=
  if isinstance obj "int" then Ok VNone
  else Raise (SerdeError "not an instance of int").

Definition empty_scope : Scope := mkScope "Foo" ∅.

(** * Properties *)

(** ** The instance check follows the source *)

Lemma is_instance_dispatch (obj : Value) (typ : Ty) :
  is_instance obj typ = is_instance_body obj typ.
Proof.
  destruct typ as [c|c s|a|ts|[a|]|[a|]|[ts|]|[[k v]|]|o ts|vs|n s| ];
    destruct obj as [| | | |xs|xs|xs|kvs|];
    try reflexivity;
    try (destruct xs as [|x xs]; reflexivity);
    try (destruct kvs as [|[k' v'] kvs]; reflexivity).
  unfold is_instance_body, is_tuple_instance, compat.is_variable_tuple; cbn.
  destruct (compat.is_variable_args ts) eqn:Hv; cbn.
  - destruct ts as [|t ts']; [discriminate|]. cbn.
    destruct (all_match _ xs) as [[|]|e]; cbn; try reflexivity.
    now rewrite orb_false_r.
  - now rewrite orb_false_r.
Qed.

(** ** The loops *)

Ltac case_check c :=
  let b := fresh "b" in
  let e := fresh "e" in
  let E := fresh "E" in
  destruct c as [b|e] eqn:E; [destruct b|]; cbn.

Section LoopFacts.
Context {A : Type} (check : A -> result bool).

(** The first-match loop answers [True] exactly when some element passes the
    check and every element before it was checked and rejected. *)
Lemma first_match_true (l : list A) :
  first_match check l = Ok true <->
  exists i a, l !! i = Some a /\ check a = Ok true /\
    forall j a', (j < i)%nat -> l !! j = Some a' -> check a' = Ok false.
Proof.
  induction l as [|a l IH]; cbn.
  - split; [discriminate|]. intros (i & a & Hl & _). destruct i; discriminate.
  - case_check (check a).
    + split; [intros _|reflexivity].
      exists 0%nat, a. repeat split; [assumption|]. intros j a' Hj. lia.
    + rewrite IH. split.
      * intros (i & x & Hl & Hx & Hbefore). exists (S i), x.
        repeat split; try assumption.
        intros [|j] a' Hj Ha'; cbn in Ha'.
        -- now inversion Ha'; subst.
        -- apply (Hbefore j); [lia|assumption].
      * intros ([|i] & x & Hl & Hx & Hbefore); cbn in Hl.
        -- inversion Hl; subst. congruence.
        -- exists i, x. repeat split; try assumption.
           intros j a' Hj Ha'. apply (Hbefore (S j)); [lia|assumption].
    + split; [discriminate|].
      intros ([|i] & x & Hl & Hx & Hbefore); cbn in Hl.
      * inversion Hl; subst. congruence.
      * specialize (Hbefore 0%nat a). cbn in Hbefore.
        assert (check a = Ok false) by (apply Hbefore; [lia|reflexivity]).
        congruence.
Qed.

(** It answers [False] exactly when every element was checked and rejected. *)
Lemma first_match_false (l : list A) :
  first_match check l = Ok false <-> Forall (fun a => check a = Ok false) l.
Proof.
  induction l as [|a l IH]; cbn.
  - split; [constructor|reflexivity].
  - case_check (check a).
    + split; [discriminate|]. intros H. inversion H; subst. congruence.
    + rewrite IH. split.
      * intros H. now constructor.
      * intros H. now inversion H.
    + split; [discriminate|]. intros H. inversion H; subst. congruence.
Qed.

Lemma all_match_true (l : list A) :
  all_match check l = Ok true <-> Forall (fun a => check a = Ok true) l.
Proof.
  induction l as [|a l IH]; cbn.
  - split; [constructor|reflexivity].
  - case_check (check a).
    + rewrite IH. split.
      * intros H. now constructor.
      * intros H. now inversion H.
    + split; [discriminate|]. intros H. inversion H; subst. congruence.
    + split; [discriminate|]. intros H. inversion H; subst. congruence.
Qed.

End LoopFacts.

(** The indexed loop answers [True] only when the object has an element at
    every index of an argument and each pair passes the check. *)
Lemma enumerate_loop_true {A B : Type} (check : A -> B -> result bool)
    (obj : list A) (args : list B) (i : nat) :
  enumerate_loop check obj i args = Ok true ->
  Forall2 (fun v arg => check v arg = Ok true)
    (take (length args) (drop i obj)) args.
Proof.
  revert i. induction args as [|arg args IH]; intros i; cbn.
  - intros _. constructor.
  - unfold getitem. destruct (obj !! i) as [v|] eqn:Hv; cbn; [|discriminate].
    case_check (check v arg); try discriminate.
    intros H. rewrite (drop_S _ _ _ Hv). cbn.
    constructor; [assumption|]. now apply IH.
Qed.

(** The indexed loop raises [IndexError] as soon as the arguments outnumber
    the elements and the elements present pass. *)
Lemma enumerate_loop_short {A B : Type} (check : A -> B -> result bool)
    (obj : list A) (args : list B) (i : nat) :
  Forall2 (fun v arg => check v arg = Ok true)
    (drop i obj) (take (length obj - i) args) ->
  (length obj - i < length args)%nat ->
  enumerate_loop check obj i args = Raise IndexError.
Proof.
  revert i. induction args as [|arg args IH]; intros i; cbn.
  - lia.
  - intros Hall Hlen. unfold getitem.
    destruct (obj !! i) as [v|] eqn:Hv; cbn; [|reflexivity].
    assert (Hi : (i < length obj)%nat) by (apply lookup_lt_is_Some; eauto).
    rewrite (drop_S _ _ _ Hv) in Hall.
    replace (length obj - i)%nat with (S (length obj - S i)) in Hall by lia.
    cbn in Hall. inversion Hall as [|? ? ? ? Hc Hrest]; subst. rewrite Hc. cbn.
    apply IH; [assumption|lia].
Qed.

(** ** The structural instance check *)


(** A fixed-arity tuple type applied to a shorter, non-empty tuple whose
    elements match: the positional loop indexes past the end. *)
Lemma is_tuple_instance_short (xs : list Value) (args : list Ty) :
  compat.is_variable_args args = false ->
  xs <> [] ->
  (length xs < length args)%nat ->
  Forall2 (fun v arg => is_instance v arg = Ok true) xs (take (length xs) args) ->
  is_instance (VTuple xs) (TTuple (Some args)) = Raise IndexError.
Proof.
  intros Hvar Hne Hlen Hall. cbn. rewrite Hvar. cbn.
  destruct xs as [|x xs']; [congruence|]. cbn [length Nat.eqb].
  apply enumerate_loop_short.
  - rewrite drop_0, Nat.sub_0_r. exact Hall.
  - lia.
Qed.

(** A variable-length tuple type applied to a one-element tuple whose element
    matches: after the loop over the elements the function goes on to the
    positional loop, which asks for the element at index 1. *)
Lemma is_tuple_instance_variable_single (x : Value) (arg : Ty) :
  is_instance x arg = Ok true ->
  is_instance (VTuple [x]) (TTuple (Some [arg; TEllipsis])) = Raise IndexError.
Proof.
  intros Hx. rewrite is_instance_dispatch.
  unfold is_instance_body, is_tuple_instance. cbn -[is_instance].
  rewrite Hx. reflexivity.
Qed.

(** C1. The instance check is not total: on the one-element tuple [(1,)] it
    raises [IndexError] for the fixed-arity type [Tuple[int, str]] and for
    the variable-length type [Tuple[int, ...]], where the claim has it return
    a boolean. *)
Theorem is_instance_raises_IndexError :
  is_instance (VTuple [VInt 1]) (TTuple (Some [int_; str_])) = Raise IndexError /\
  is_tuple_instance (VTuple [VInt 1]) (TTuple (Some [int_; str_])) = Raise IndexError /\
  is_instance (VTuple [VInt 1]) (TTuple (Some [int_; TEllipsis])) = Raise IndexError /\
  is_tuple_instance (VTuple [VInt 1]) (TTuple (Some [int_; TEllipsis])) = Raise IndexError.
Proof. repeat split; reflexivity. Qed.

(** The union check is a first-match loop: it returns [True] exactly when
    there is a variant whose check returns [True] and every variant declared
    before it was tested and returned [False], and [False] exactly when every
    variant returned [False].  For [Union[bool, int]] the value [True]
    matches through the first variant, [bool]. *)
Lemma is_union_instance_first_match :
  (forall (obj : Value) (args : list Ty),
     is_instance obj (TUnion args) = Ok true <->
     exists i arg, args !! i = Some arg /\ is_instance obj arg = Ok true /\
       forall j arg', (j < i)%nat -> args !! j = Some arg' ->
         is_instance obj arg' = Ok false) /\
  (forall (obj : Value) (args : list Ty),
     is_instance obj (TUnion args) = Ok false <->
     Forall (fun arg => is_instance obj arg = Ok false) args) /\
  (forall (obj : Value) (args : list Ty),
     is_instance obj (TUnion args) = is_union_instance obj (TUnion args)) /\
  is_instance (VBool true) (TUnion [bool_; int_]) = Ok true /\
  [bool_; int_] !! 0%nat = Some bool_ /\
  is_instance (VBool true) bool_ = Ok true.
Proof.
  repeat split; try reflexivity.
  - apply (first_match_true (fun arg => is_instance obj arg)).
  - apply (first_match_true (fun arg => is_instance obj arg)).
  - apply (first_match_false (fun arg => is_instance obj arg)).
  - apply (first_match_false (fun arg => is_instance obj arg)).
Qed.

(** C4. The union check does not return [True] whenever some variant matches:
    on the tuple [(1,)] against [Union[Tuple[int, str], Tuple[int]]] the
    check of the first variant raises [IndexError] (the defect of C1), the
    exception leaves the loop of [is_union_instance], which has no handler,
    and the second variant, which matches, is never tested.  So the
    equivalence of the claim does not hold of the code. *)
Theorem is_union_instance_raises_before_match :
  is_instance (VTuple [VInt 1]) (TTuple (Some [int_])) = Ok true /\
  is_instance (VTuple [VInt 1]) (TTuple (Some [int_; str_])) = Raise IndexError /\
  is_instance (VTuple [VInt 1])
    (TUnion [TTuple (Some [int_; str_]); TTuple (Some [int_])])
  = Raise IndexError /\
  is_union_instance (VTuple [VInt 1])
    (TUnion [TTuple (Some [int_; str_]); TTuple (Some [int_])])
  = Raise IndexError /\
  ~ (forall (obj : Value) (args : list Ty),
       is_instance obj (TUnion args) = Ok true <->
       exists arg, In arg args /\ is_instance obj arg = Ok true).
Proof.
  repeat split; try reflexivity.
  intros H.
  assert (Hraise : is_instance (VTuple [VInt 1])
            (TUnion [TTuple (Some [int_; str_]); TTuple (Some [int_])])
          = Raise IndexError) by reflexivity.
  assert (Htrue : is_instance (VTuple [VInt 1])
            (TUnion [TTuple (Some [int_; str_]); TTuple (Some [int_])])
          = Ok true).
  { apply H. exists (TTuple (Some [int_])). split; [|reflexivity].
    right. left. reflexivity. }
  rewrite Hraise in Htrue. discriminate Htrue.
Qed.

(** C5. The list check samples the first element only: on a non-empty list
    the result for [List[T]] is the result of checking the element at index 0
    against [T], whatever the later elements are; the check of [List[T]]
    returns [True] exactly on the empty list and on a list whose first
    element matches [T]; [[1, "x"]] matches [List[int]], [["x", 1]] does not;
    the empty list matches every list type. *)
Theorem is_list_instance_first_element :
  (forall (x : Value) (xs : list Value) (T : Ty),
     is_instance (VList (x :: xs)) (TList (Some T)) = is_instance x T) /\
  (forall (obj : Value) (T : Ty),
     is_instance obj (TList (Some T)) = Ok true <->
     obj = VList [] \/
     exists x xs, obj = VList (x :: xs) /\ is_instance x T = Ok true) /\
  is_instance (VList [VInt 1; VStr "x"]) (TList (Some int_)) = Ok true /\
  is_instance (VList [VStr "x"; VInt 1]) (TList (Some int_)) = Ok false /\
  (forall arg : option Ty, is_instance (VList []) (TList arg) = Ok true).
Proof.
  repeat split; try reflexivity.
  - destruct obj as [| | | |[|x xs]| | | |]; cbn; try discriminate.
    + intros _. now left.
    + intros H. right. now exists x, xs.
  - intros [->|(x & xs & -> & H)]; [reflexivity|exact H].
Qed.

(** C6, the claim as stated fails: the three-element tuple [(1, "a", 2)]
    passes the check of the two-element type [Tuple[int, str]], and so does
    the empty tuple. *)
Lemma is_tuple_instance_ignores_length :
  is_instance (VTuple [VInt 1; VStr "a"; VInt 2]) (TTuple (Some [int_; str_])) = Ok true /\
  length [VInt 1; VStr "a"; VInt 2] <> length [int_; str_] /\
  is_instance (VTuple []) (TTuple (Some [int_; str_])) = Ok true /\
  length (@nil Value) <> length [int_; str_].
Proof. repeat split; try reflexivity; cbn; lia. Qed.

(** C6, amended.  When the check of a tuple value against a fixed-arity tuple
    type returns [True], the value is empty, or it has at least as many
    elements as the type has positions and each of these positions matches
    its declared type (elements beyond the arity are not looked at).  When
    the check against a variable-length tuple type returns [True], every
    element matches the element type. *)
Theorem is_tuple_instance_true (xs : list Value) (args : list Ty) :
  is_instance (VTuple xs) (TTuple (Some args)) = Ok true ->
  match args with
  | [arg; TEllipsis] => Forall (fun v => is_instance v arg = Ok true) xs
  | _ =>
      xs = [] \/
      ((length args <= length xs)%nat /\
       Forall2 (fun v arg => is_instance v arg = Ok true)
         (take (length args) xs) args)
  end.
Proof.
  intros H.
  assert (Hfixed : compat.is_variable_args args = false ->
    xs = [] \/
    ((length args <= length xs)%nat /\
     Forall2 (fun v arg => is_instance v arg = Ok true)
       (take (length args) xs) args)).
  { intros Hvar. cbn in H. rewrite Hvar in H. cbn in H.
    destruct xs as [|x xs']; [now left|right]. cbn [length Nat.eqb] in H.
    apply enumerate_loop_true in H. rewrite drop_0 in H.
    split; [|exact H].
    apply Forall2_length in H. rewrite length_take in H. lia. }
  destruct args as [|arg [|e [|e' args']]]; try (apply Hfixed; reflexivity);
    destruct e; try (apply Hfixed; reflexivity).
  cbn in H.
  destruct (all_match (fun v => is_instance v arg) xs) as [[|]|err] eqn:Hall;
    cbn in H; try discriminate.
  now apply all_match_true in Hall.
Qed.

Lemma is_tuple_instance_true_witness :
  is_instance (VTuple [VInt 1; VStr "a"; VInt 2]) (TTuple (Some [int_; str_])) = Ok true /\
  ([VInt 1; VStr "a"; VInt 2] = [] \/
   ((length [int_; str_] <= length [VInt 1; VStr "a"; VInt 2])%nat /\
    Forall2 (fun v arg => is_instance v arg = Ok true)
      (take (length [int_; str_]) [VInt 1; VStr "a"; VInt 2]) [int_; str_])).
Proof.
  split; [reflexivity|].
  apply (is_tuple_instance_true [VInt 1; VStr "a"; VInt 2] [int_; str_]).
  reflexivity.
Defined.

(** C10. On a record type the check returns [True] only for a nominal
    instance.  Without a scope the result is the nominal check; with a scope
    whose type check function returns, the result is the nominal check as
    well; when that function raises, or the scope holds no such function, the
    result is [False] and the nominal check plays no part. *)
Theorem is_instance_dataclass_nominal :
  (forall (obj : Value) (c : string) (scope : option Scope),
     is_instance obj (TDataclass c scope) = Ok true -> isinstance obj c = true) /\
  (forall (obj : Value) (c : string),
     is_instance obj (TDataclass c None) = Ok (isinstance obj c)) /\
  (forall (obj : Value) (c : string) (s : Scope) (f : PyFunc) (r : Value),
     funcs s !! TYPE_CHECK = Some f -> f obj = Ok r ->
     is_instance obj (TDataclass c (Some s)) = Ok (isinstance obj c)) /\
  (forall (obj : Value) (c : string) (s : Scope) (f : PyFunc) (e : exn),
     funcs s !! TYPE_CHECK = Some f -> f obj = Raise e ->
     is_instance obj (TDataclass c (Some s)) = Ok false) /\
  (forall (obj : Value) (c : string) (s : Scope),
     funcs s !! TYPE_CHECK = None ->
     is_instance obj (TDataclass c (Some s)) = Ok false).
Proof.
  repeat split.
  - intros obj c [s|]; cbn; [|congruence].
    destruct (call_func (funcs s) TYPE_CHECK obj); congruence.
  - intros obj c s f r Hf Hr. cbn [is_instance].
    unfold dataclass_instance, call_func. now rewrite Hf, Hr.
  - intros obj c s f e Hf He. cbn [is_instance].
    unfold dataclass_instance, call_func. now rewrite Hf, He.
  - intros obj c s Hf. cbn [is_instance].
    unfold dataclass_instance, call_func. now rewrite Hf.
Qed.

Lemma is_instance_dataclass_nominal_witness :
  is_instance (VObj ["Foo"; "object"] []) (TDataclass "Foo" None) = Ok true /\
  isinstance (VObj ["Foo"; "object"] []) "Foo" = true.
Proof.
  split; [reflexivity|].
  apply (proj1 is_instance_dataclass_nominal (VObj ["Foo"; "object"] []) "Foo" None).
  reflexivity.
Defined.

(** ** Union tagging *)

(** C2. [Tagging.check] raises exactly when a field the kind requires is
    missing: an internal tagging without [tag] raises the configuration
    error and one with [tag] passes; an adjacent tagging without [tag] or
    without [content] raises it and one with both passes; an external or
    untagged tagging passes whatever [tag] and [content] are. *)
Theorem Tagging_check_raises_iff_missing (tag content : option string) :
  Tagging.check (Tagging.mk None content Tagging.Internal)
    = Raise (SerdeError Tagging.internal_message) /\
  (forall s, Tagging.check (Tagging.mk (Some s) content Tagging.Internal) = Ok tt) /\
  Tagging.check (Tagging.mk None content Tagging.Adjacent)
    = Raise (SerdeError Tagging.adjacent_message) /\
  Tagging.check (Tagging.mk tag None Tagging.Adjacent)
    = Raise (SerdeError Tagging.adjacent_message) /\
  (forall s c,
     Tagging.check (Tagging.mk (Some s) (Some c) Tagging.Adjacent) = Ok tt) /\
  Tagging.check (Tagging.mk tag content Tagging.External) = Ok tt /\
  Tagging.check (Tagging.mk tag content Tagging.Untagged) = Ok tt.
Proof.
  repeat split; try reflexivity; destruct tag; reflexivity.
Qed.

(** The same as one equivalence on an arbitrary tagging. *)
Lemma Tagging_check_raises (self : Tagging.t) :
  raises (Tagging.check self) <->
  (Tagging.kind self = Tagging.Internal /\ Tagging.tag self = None) \/
  (Tagging.kind self = Tagging.Adjacent /\
   (Tagging.tag self = None \/ Tagging.content self = None)).
Proof.
  destruct self as [[t|] [c|] []]; cbn; unfold raises; cbn; split;
    try (intros [e He]; discriminate);
    try (intros [[H1 H2]|[H1 [H2|H2]]]; discriminate);
    try (intros _; eexists; reflexivity);
    intros _; tauto.
Qed.

(** ** Coercion *)

(** C9, the claim as stated fails: an instance of [Wrap] is not returned
    unchanged by [coerce(Wrap, obj)]; the class is called on it and the
    result wraps the object once more. *)
Lemma coerce_rebuilds_instance :
  isinstance (VObj ["Wrap"; "object"] [("v", VInt 1)]) (cname Wrap) = true /\
  coerce Wrap (VObj ["Wrap"; "object"] [("v", VInt 1)])
    = Ok (VObj ["Wrap"; "object"]
            [("v", VObj ["Wrap"; "object"] [("v", VInt 1)])]) /\
  coerce Wrap (VObj ["Wrap"; "object"] [("v", VInt 1)])
    <> Ok (VObj ["Wrap"; "object"] [("v", VInt 1)]).
Proof. repeat split; try reflexivity. cbn. discriminate. Qed.

(** C9, amended.  [coerce(typ, obj)] returns [obj] unchanged when [obj] is
    [None] and the result of calling [typ] on [obj] otherwise, whether or not
    [obj] already is an instance of [typ]. *)
Theorem coerce_calls_type_unless_None (typ : Class) (obj : Value) :
  coerce typ obj =
    match obj with
    | VNone => Ok obj
    | _ => construct typ obj
    end.
Proof. destruct obj; reflexivity. Qed.

(** ** Name mangling *)

Lemma re_sub_non_alnum_spec (s : string) : re_sub_non_alnum s = sanitize_spec s.
Proof.
  unfold re_sub_non_alnum, sanitize_spec.
  induction s as [|c s IH]; cbn; [reflexivity|].
  rewrite IH. f_equal.
  destruct (is_alnum c); cbn; [reflexivity|].
  destruct (Ascii.eqb c "_") eqn:E; [|reflexivity].
  apply Ascii.eqb_eq in E. now subst.
Qed.

Lemma sanitize_spec_chars (s : string) :
  Forall (fun c => is_alnum c = true \/ c = "_"%char)
    (list_ascii_of_string (sanitize_spec s)).
Proof.
  induction s as [|c s IH]; cbn; constructor; [|exact IH].
  destruct (is_alnum c) eqn:E; cbn; [now left|].
  destruct (Ascii.eqb c "_") eqn:E'; right; [|reflexivity].
  now apply Ascii.eqb_eq in E'.
Qed.

Lemma sanitize_spec_length (s : string) :
  String.length (sanitize_spec s) = String.length s.
Proof.
  unfold sanitize_spec. induction s as [|c s IH]; cbn; [reflexivity|].
  now rewrite IH.
Qed.

(** The doctests of the two manglers. *)
Example union_func_name_doctest :
  union_func_name typename "union_se"
    [int_; TList (Some str_); TClass "IPv4Address"]
  = "union_se_int_List_str__IPv4Address".
Proof. reflexivity. Qed.

Example literal_func_name_doctest :
  literal_func_name typename
    (map LStr ["r"; "w"; "a"; "x"; "r+"; "w+"; "a+"; "x+"])
  = "literal_de_r_str_w_str_a_str_x_str_r__str_w__str_a__str_x__str".
Proof. reflexivity. Qed.

(** C8. The manglers have the stated formats, for every naming function
    [typename]: a field and a purpose give the field name, an underscore and
    the purpose; a prefix and a list of types give the prefix and the type
    names joined by underscores, every character outside [A-Za-z0-9_]
    replaced by an underscore; a list of literal values gives the same with
    one "value_type" entry per value.  The result consists of characters of
    [A-Za-z0-9_] and depends on the field name and purpose, or on the prefix
    and the sequence of type names, only. *)
Theorem name_mangling_formats (typename : Ty -> string) :
  (forall (field : dataclasses.Field) (purpose : string),
     Field.mangle field purpose = dataclasses.name field +:+ "_" +:+ purpose) /\
  (forall (prefix : string) (union_args : list Ty),
     union_func_name typename prefix union_args =
     sanitize_spec
       (prefix +:+ "_" +:+ String.concat "_" (map typename union_args))) /\
  (forall (prefix : string) (t : Ty) (ts : list Ty),
     union_func_name typename prefix (t :: ts) =
     sanitize_spec (String.concat "_" (prefix :: map typename (t :: ts)))) /\
  (forall literal_args : list LitValue,
     literal_func_name typename literal_args =
     sanitize_spec
       (LITERAL_DE_PREFIX +:+ "_" +:+
        String.concat "_"
          (map (fun a => lit_str a +:+ "_" +:+ typename (lit_type a))
             literal_args))) /\
  (forall (prefix : string) (union_args : list Ty),
     Forall (fun c => is_alnum c = true \/ c = "_"%char)
       (list_ascii_of_string (union_func_name typename prefix union_args))) /\
  (forall (f1 f2 : dataclasses.Field) (p1 p2 : string),
     dataclasses.name f1 = dataclasses.name f2 -> p1 = p2 ->
     Field.mangle f1 p1 = Field.mangle f2 p2) /\
  (forall (prefix : string) (args1 args2 : list Ty),
     map typename args1 = map typename args2 ->
     union_func_name typename prefix args1 = union_func_name typename prefix args2).
Proof.
  repeat split.
  - intros. apply re_sub_non_alnum_spec.
  - intros. apply re_sub_non_alnum_spec.
  - intros. apply re_sub_non_alnum_spec.
  - intros. unfold union_func_name. rewrite re_sub_non_alnum_spec.
    apply sanitize_spec_chars.
  - intros f1 f2 p1 p2 Hn ->. unfold Field.mangle. now rewrite Hn.
  - intros prefix args1 args2 H. unfold union_func_name. now rewrite H.
Qed.

Lemma name_mangling_formats_witness :
  map typename [TClass "Foo"; int_] = map typename [TDataclass "Foo" None; int_] /\
  union_func_name typename "union_se" [TClass "Foo"; int_]
  = union_func_name typename "union_se" [TDataclass "Foo" None; int_].
Proof.
  split; [reflexivity|].
  apply (proj2 (proj2 (proj2 (proj2 (proj2 (proj2 (name_mangling_formats typename))))))).
  reflexivity.
Defined.

(** ** Field metadata *)

(** C7. One skip predicate at most reaches the [skip_if] slot, chosen by
    priority: the explicit [serde_skip_if] entry when it is true and
    callable, else the skip-on-false predicate when its flag is true, else
    the skip-on-default predicate when its flag is true, else none.  In
    particular a field with a function under [serde_skip_if] materializes
    that function, whatever the two flags are. *)
Theorem from_dataclass_skip_if_priority
    (f : dataclasses.Field) (parent : option Ty) :
  let md := dataclasses.metadata f in
  Field.skip_if (Field.from_dataclass f parent) =
    (if truthy (get md "serde_skip_if") && callable (get md "serde_skip_if")
     then Some (mkFunc (get md "serde_skip_if") (Field.mangle f "skip_if"))
     else if truthy (get md "serde_skip_if_false")
     then Some (mkFunc (OFunction fn_skip_if_false)
                  (Field.mangle f "skip_if_false"))
     else if truthy (get md "serde_skip_if_default")
     then Some (mkFunc
                  (OFunction (partial_skip_if_default (dataclasses.default f)))
                  (Field.mangle f "skip_if_default"))
     else None) /\
  (forall fn : Callable,
     md !! "serde_skip_if" = Some (OFunction fn) ->
     Field.skip_if (Field.from_dataclass f parent)
     = Some (mkFunc (OFunction fn) (Field.mangle f "skip_if"))).
Proof.
  cbn zeta. split.
  - unfold Field.from_dataclass. cbn [Field.skip_if].
    set (md := dataclasses.metadata f).
    destruct (truthy (get md "serde_skip_if")); cbn [andb];
      [destruct (callable (get md "serde_skip_if"))|]; cbn [or_else];
      destruct (truthy (get md "serde_skip_if_false")); cbn [or_else];
      destruct (truthy (get md "serde_skip_if_default")); reflexivity.
  - intros fn Hfn. unfold Field.from_dataclass. cbn [Field.skip_if].
    unfold get, get_or. rewrite Hfn. reflexivity.
Qed.

Lemma from_dataclass_skip_if_priority_witness :
  truthy (get (dataclasses.metadata both_configured) "serde_skip_if_false") = true /\
  dataclasses.metadata both_configured !! "serde_skip_if"
    = Some (OFunction (fn_user "is_empty")) /\
  Field.skip_if (Field.from_dataclass both_configured None)
    = Some (mkFunc (OFunction (fn_user "is_empty")) "v_skip_if").
Proof.
  split; [vm_compute; reflexivity|]. split; [vm_compute; reflexivity|].
  apply (proj2 (from_dataclass_skip_if_priority both_configured None)).
  vm_compute. reflexivity.
Defined.

(** ** The global registry *)

Section RegistryFacts.
Variable typename : Ty -> string.
Variable serialize deserialize : GlobalScope.ClassObject -> GlobalScope.ClassObject.

(** The registry key depends on the sequence of variant names only. *)
Lemma union_key_of_names (args1 args2 : list Ty) :
  map typename args1 = map typename args2 ->
  union_func_name typename "global" args1 = union_func_name typename "global" args2.
Proof. intros H. unfold union_func_name. now rewrite H. Qed.

(** After [add_union] a lookup under the same key finds the new wrapper. *)
Lemma get_union_after_add_union (rt : GlobalScope.Runtime) (cls1 cls2 : Ty) :
  union_func_name typename "global" (compat.type_args cls1)
  = union_func_name typename "global" (compat.type_args cls2) ->
  GlobalScope.get_union typename
    (GlobalScope.add_union typename serialize deserialize rt cls1).1 cls2
  = Some (GlobalScope.add_union typename serialize deserialize rt cls1).2.
Proof.
  intros Hkey. unfold GlobalScope.get_union, GlobalScope.add_union. cbn.
  rewrite <- Hkey. apply lookup_insert_eq.
Qed.

End RegistryFacts.

(** C3. The registry deduplicates unions by signature: when two unions have
    variant lists with the same sequence of canonical names, their registry
    keys are equal, and after [add_union] on the first, [get_union] on the
    second returns the reference [add_union] returned, that is the very
    class object that was registered, with its scope. *)
Theorem registry_deduplicates_unions
    (typename : Ty -> string)
    (serialize deserialize : GlobalScope.ClassObject -> GlobalScope.ClassObject)
    (rt : GlobalScope.Runtime) (args1 args2 : list Ty) :
  map typename args1 = map typename args2 ->
  let added :=
    GlobalScope.add_union typename serialize deserialize rt (TUnion args1) in
  let wrapper :=
    GlobalScope.serde serialize deserialize
      (GlobalScope.make_dataclass (union_func_name typename "global" args1)
         [("v", TUnion args1)]) in
  union_func_name typename "global" args1
    = union_func_name typename "global" args2 /\
  GlobalScope.get_union typename added.1 (TUnion args2) = Some added.2 /\
  GlobalScope.heap added.1 !! added.2 = Some wrapper /\
  GlobalScope.scope_at added.1 added.2 = GlobalScope.serde_scope wrapper.
Proof.
  intros Hnames added wrapper.
  pose proof (union_key_of_names typename args1 args2 Hnames) as Hkey.
  split; [exact Hkey|]. split.
  - apply get_union_after_add_union. exact Hkey.
  - assert (Hheap : GlobalScope.heap added.1 !! added.2 = Some wrapper)
      by (cbn; apply lookup_insert_eq).
    split; [exact Hheap|]. unfold GlobalScope.scope_at. now rewrite Hheap.
Qed.

Lemma registry_deduplicates_unions_witness :
  map typename [int_; TClass "Foo"] = map typename [int_; TDataclass "Foo" None] /\
  GlobalScope.get_union typename
    (GlobalScope.add_union typename attach_scope id empty_runtime
       (TUnion [int_; TClass "Foo"])).1
    (TUnion [int_; TDataclass "Foo" None])
  = Some
      (GlobalScope.add_union typename attach_scope id empty_runtime
         (TUnion [int_; TClass "Foo"])).2.
Proof.
  split; [reflexivity|].
  apply (registry_deduplicates_unions typename attach_scope id empty_runtime
           [int_; TClass "Foo"] [int_; TDataclass "Foo" None]).
  reflexivity.
Defined.

(** * Further properties *)

(** ** Induction on type descriptors *)

Section TyInduction.
Variable P : Ty -> Prop.
Hypothesis HClass : forall c, P (TClass c).
Hypothesis HDataclass : forall c s, P (TDataclass c s).
Hypothesis HOptional : forall arg, P arg -> P (TOptional arg).
Hypothesis HUnion : forall args, Forall P args -> P (TUnion args).
Hypothesis HList : forall arg, (forall t, arg = Some t -> P t) -> P (TList arg).
Hypothesis HSet : forall arg, (forall t, arg = Some t -> P t) -> P (TSet arg).
Hypothesis HTuple :
  forall args, (forall l, args = Some l -> Forall P l) -> P (TTuple args).
Hypothesis HDict :
  forall args, (forall k v, args = Some (k, v) -> P k /\ P v) -> P (TDict args).
Hypothesis HGeneric :
  forall origin args, P origin -> Forall P args -> P (TGeneric origin args).
Hypothesis HLiteral : forall vs, P (TLiteral vs).
Hypothesis HNewType : forall n s, P (TNewType n s).
Hypothesis HEllipsis : P TEllipsis.


End TyInduction.

(** ** What the loops raise *)

Section LoopRaises.
Context {A : Type} (check : A -> result bool) (Q : exn -> Prop).




End LoopRaises.


Lemma enumerate_loop_complete {A B : Type} (check : A -> B -> result bool)
    (obj : list A) (args : list B) (i : nat) :
  Forall2 (fun v arg => check v arg = Ok true)
    (take (length args) (drop i obj)) args ->
  enumerate_loop check obj i args = Ok true.
Proof.
  revert i. induction args as [|arg args IH]; intros i; cbn; [reflexivity|].
  destruct (drop i obj) as [|v rest] eqn:Hd; cbn; [intros H; inversion H|].
  intros H. inversion H as [|? ? ? ? Hv Hrest]; subst.
  assert (Hi : obj !! i = Some v).
  { rewrite <- (Nat.add_0_r i), <- lookup_drop, Hd. reflexivity. }
  unfold getitem. rewrite Hi. cbn. rewrite Hv. cbn.
  apply IH. rewrite (drop_S _ _ _ Hi) in Hd. now inversion Hd; subst.
Qed.

(** ** The instance check: exceptions *)




(** ** The instance check: tuples, unions, sets and dicts *)

(** X3. For a fixed-arity tuple type and a non-empty tuple, the check returns
    [True] exactly when the tuple has at least as many elements as the type
    has positions and each of these positions matches its declared type; what
    follows them is never looked at. *)
Theorem is_tuple_instance_fixed_arity (xs : list Value) (args : list Ty) :
  compat.is_variable_args args = false ->
  xs <> [] ->
  is_instance (VTuple xs) (TTuple (Some args)) = Ok true <->
  (length args <= length xs)%nat /\
  Forall2 (fun v arg => is_instance v arg = Ok true) (take (length args) xs) args.
Proof.
  intros Hvar Hne. cbn -[enumerate_loop]. rewrite Hvar. cbn -[enumerate_loop].
  destruct xs as [|x xs']; [congruence|]. cbn [length Nat.eqb].
  split.
  - intros H. apply enumerate_loop_true in H. rewrite drop_0 in H.
    split; [|exact H].
    apply Forall2_length in H. rewrite length_take in H. cbn [length] in *. lia.
  - intros [_ H]. apply enumerate_loop_complete. now rewrite drop_0.
Qed.

Lemma is_tuple_instance_fixed_arity_witness :
  compat.is_variable_args [str_; int_] = false /\
  [VStr "a"; VBool true; VNone] <> [] /\
  (is_instance (VTuple [VStr "a"; VBool true; VNone]) (TTuple (Some [str_; int_]))
   = Ok true <->
   (length [str_; int_] <= length [VStr "a"; VBool true; VNone])%nat /\
   Forall2 (fun v arg => is_instance v arg = Ok true)
     (take (length [str_; int_]) [VStr "a"; VBool true; VNone]) [str_; int_]).
Proof.
  split; [reflexivity|]. split; [discriminate|].
  apply (is_tuple_instance_fixed_arity [VStr "a"; VBool true; VNone] [str_; int_]);
    [reflexivity|discriminate].
Defined.

(** X4. For a variable-length tuple type the check returns [True] exactly
    when every element matches the element type and the tuple does not have
    exactly one element. *)
Theorem is_tuple_instance_variable_length (xs : list Value) (arg : Ty) :
  is_instance (VTuple xs) (TTuple (Some [arg; TEllipsis])) = Ok true <->
  Forall (fun v => is_instance v arg = Ok true) xs /\ length xs <> 1%nat.
Proof.
  cbn -[all_match].
  destruct (all_match (fun v => is_instance v arg) xs) as [[|]|e] eqn:Hall;
    cbn -[all_match].
  - apply all_match_true in Hall.
    destruct xs as [|x0 [|x1 xs']]; cbn.
    + split; [intros _; split; [constructor|discriminate]|reflexivity].
    + inversion Hall as [|? ? Hx0 _]; subst. rewrite Hx0. cbn.
      split; [discriminate|]. intros [_ H]. congruence.
    + inversion Hall as [|? ? Hx0 _]; subst. rewrite Hx0. cbn.
      split; [intros _; split; [exact Hall|discriminate]|reflexivity].
  - split; [discriminate|]. intros [H _].
    apply all_match_true in H. congruence.
  - split; [discriminate|]. intros [H _].
    apply all_match_true in H. congruence.
Qed.

Section UnionOrder.
Context {A : Type} (check : A -> result bool).

Lemma first_match_Permutation (l l' : list A) :
  Permutation l l' ->
  Forall (fun a => exists b, check a = Ok b) l ->
  first_match check l = first_match check l'.
Proof.
  induction 1 as [|x l l' Hp IH|x y l|l l' l'' Hp1 IH1 Hp2 IH2]; intros Hall.
  - reflexivity.
  - inversion Hall as [|? ? [b Hb] Hrest]; subst. cbn. rewrite Hb. cbn.
    destruct b; [reflexivity|now apply IH].
  - inversion Hall as [|? ? [by_ Hy] Hrest]; subst.
    inversion Hrest as [|? ? [bx Hx] _]; subst.
    cbn. rewrite Hx, Hy. cbn. destruct bx, by_; reflexivity.
  - rewrite IH1 by exact Hall. apply IH2.
    eapply Permutation_Forall; eassumption.
Qed.

End UnionOrder.

(** X5. When the check of every variant returns a boolean on the value, the
    result of the union check does not depend on the order of the
    variants. *)
Theorem is_union_instance_order_irrelevant
    (obj : Value) (args args' : list Ty) :
  Permutation args args' ->
  Forall (fun arg => exists b, is_instance obj arg = Ok b) args ->
  is_instance obj (TUnion args) = is_instance obj (TUnion args').
Proof.
  intros Hp Hall. cbn.
  now apply (first_match_Permutation (fun arg => is_instance obj arg)).
Qed.

Lemma is_union_instance_order_irrelevant_witness :
  Permutation [str_; TList None; int_] [int_; str_; TList None] /\
  Forall (fun arg => exists b, is_instance (VBool true) arg = Ok b)
    [str_; TList None; int_] /\
  is_instance (VBool true) (TUnion [str_; TList None; int_])
  = is_instance (VBool true) (TUnion [int_; str_; TList None]).
Proof.
  assert (Hp : Permutation [str_; TList None; int_] [int_; str_; TList None]).
  { change [int_; str_; TList None] with ([int_] ++ [str_; TList None]).
    change [str_; TList None; int_] with ([str_; TList None] ++ [int_]).
    apply Permutation_app_comm. }
  assert (Hall : Forall (fun arg => exists b, is_instance (VBool true) arg = Ok b)
                   [str_; TList None; int_]).
  { repeat constructor; eexists; reflexivity. }
  split; [exact Hp|]. split; [exact Hall|].
  exact (is_union_instance_order_irrelevant (VBool true) _ _ Hp Hall).
Defined.

(** X6. Sets and dicts are sampled like lists.  On a non-empty set the result
    is the check of the first element in iteration order; on a non-empty dict
    it is [True] exactly when the first key and the first value match, the
    value being checked only after the key matched; the other entries are
    never looked at. *)
Theorem is_set_and_dict_instance_sample_first :
  (forall (x : Value) (xs : list Value) (T : Ty),
     is_instance (VSet (x :: xs)) (TSet (Some T)) = is_instance x T) /\
  (forall (k v : Value) (kvs : list (Value * Value)) (K V : Ty),
     is_instance (VDict ((k, v) :: kvs)) (TDict (Some (K, V))) = Ok true <->
     is_instance k K = Ok true /\ is_instance v V = Ok true) /\
  (forall (k v : Value) (kvs : list (Value * Value)) (K V : Ty),
     is_instance k K = Ok false ->
     is_instance (VDict ((k, v) :: kvs)) (TDict (Some (K, V))) = Ok false) /\
  (forall (arg : option Ty) (args : option (Ty * Ty)),
     is_instance (VSet []) (TSet arg) = Ok true /\
     is_instance (VDict []) (TDict args) = Ok true).
Proof.
  split; [reflexivity|]. split; [|split].
  - intros k v kvs K V. cbn.
    destruct (is_instance k K) as [[|]|e]; cbn.
    + split; [now intros H|now intros [_ H]].
    + split; [discriminate|]. now intros [H _].
    + split; [discriminate|]. now intros [H _].
  - intros k v kvs K V H. cbn. now rewrite H.
  - intros arg args. split; reflexivity.
Qed.

Lemma is_set_and_dict_instance_sample_first_witness :
  is_instance (VInt 1) str_ = Ok false /\
  is_instance (VDict [(VInt 1, VTuple [VInt 1])])
    (TDict (Some (str_, TTuple (Some [int_; str_])))) = Ok false.
Proof.
  split; [reflexivity|].
  apply (proj1 (proj2 (proj2 is_set_and_dict_instance_sample_first))).
  reflexivity.
Defined.

(** ** Name mangling: structure and collisions *)

Lemma append_String (c : ascii) (a b : string) :
  String c a +:+ b = String c (a +:+ b).
Proof. reflexivity. Qed.

Lemma string_map_app (f : ascii -> ascii) (a b : string) :
  string_map f (a +:+ b) = string_map f a +:+ string_map f b.
Proof.
  induction a as [|c a IH]; [reflexivity|].
  cbn [string_map]. rewrite !append_String. cbn [string_map]. now rewrite IH.
Qed.

Lemma re_sub_non_alnum_app (a b : string) :
  re_sub_non_alnum (a +:+ b) = re_sub_non_alnum a +:+ re_sub_non_alnum b.
Proof. apply string_map_app. Qed.

Lemma re_sub_non_alnum_concat (sep : string) (l : list string) :
  re_sub_non_alnum (String.concat sep l)
  = String.concat (re_sub_non_alnum sep) (map re_sub_non_alnum l).
Proof.
  induction l as [|x [|y l] IH]; try reflexivity.
  change (String.concat sep (x :: y :: l))
    with (x +:+ sep +:+ String.concat sep (y :: l)).
  rewrite !re_sub_non_alnum_app, IH. reflexivity.
Qed.

Lemma re_sub_non_alnum_idempotent (s : string) :
  re_sub_non_alnum (re_sub_non_alnum s) = re_sub_non_alnum s.
Proof.
  unfold re_sub_non_alnum. induction s as [|c s IH]; cbn; [reflexivity|].
  rewrite IH. f_equal. destruct (is_alnum c) eqn:E; [now rewrite E|reflexivity].
Qed.

Lemma union_func_name_unfold (typename : Ty -> string)
    (prefix : string) (union_args : list Ty) :
  union_func_name typename prefix union_args =
    re_sub_non_alnum prefix +:+ "_" +:+
    String.concat "_" (map (fun t => re_sub_non_alnum (typename t)) union_args).
Proof.
  unfold union_func_name.
  rewrite !re_sub_non_alnum_app, re_sub_non_alnum_concat, map_map. reflexivity.
Qed.

(** X7. The mangled union name is the sanitized prefix, an underscore and the
    sanitized type names joined by underscores: each type contributes its own
    sanitized name, of the length of its canonical name, and sanitizing a
    mangled name again changes nothing. *)
Theorem union_func_name_structure (typename : Ty -> string)
    (prefix : string) (union_args : list Ty) :
  union_func_name typename prefix union_args =
    re_sub_non_alnum prefix +:+ "_" +:+
    String.concat "_" (map (fun t => re_sub_non_alnum (typename t)) union_args) /\
  Forall2 (fun t name => String.length name = String.length (typename t))
    union_args (map (fun t => re_sub_non_alnum (typename t)) union_args) /\
  re_sub_non_alnum (union_func_name typename prefix union_args)
  = union_func_name typename prefix union_args.
Proof.
  split; [|split].
  - apply union_func_name_unfold.
  - induction union_args as [|t ts IH]; cbn; constructor; [|exact IH].
    rewrite re_sub_non_alnum_spec. apply sanitize_spec_length.
  - apply re_sub_non_alnum_idempotent.
Qed.

(** X8. Type lists whose names agree after sanitizing get the same mangled
    name, so the registry hands the wrapper registered for one union to a
    lookup of the other, also when the unions differ. *)
Theorem union_func_name_collides
    (typename : Ty -> string)
    (serialize deserialize : GlobalScope.ClassObject -> GlobalScope.ClassObject)
    (rt : GlobalScope.Runtime) (args1 args2 : list Ty) :
  map (fun t => re_sub_non_alnum (typename t)) args1
  = map (fun t => re_sub_non_alnum (typename t)) args2 ->
  (forall prefix,
     union_func_name typename prefix args1 = union_func_name typename prefix args2) /\
  GlobalScope.get_union typename
    (GlobalScope.add_union typename serialize deserialize rt (TUnion args1)).1
    (TUnion args2)
  = Some (GlobalScope.add_union typename serialize deserialize rt (TUnion args1)).2.
Proof.
  intros Hnames.
  assert (Hkey : forall prefix,
    union_func_name typename prefix args1 = union_func_name typename prefix args2).
  { intros prefix.
    rewrite (union_func_name_unfold typename prefix args1).
    rewrite (union_func_name_unfold typename prefix args2).
    now rewrite Hnames. }
  split; [exact Hkey|].
  apply get_union_after_add_union. apply Hkey.
Qed.

Lemma union_func_name_collides_witness :
  map typename [TList (Some str_); int_] <> map typename [TClass "List_str_"; int_] /\
  map (fun t => re_sub_non_alnum (typename t)) [TList (Some str_); int_]
  = map (fun t => re_sub_non_alnum (typename t)) [TClass "List_str_"; int_] /\
  GlobalScope.get_union typename
    (GlobalScope.add_union typename attach_scope id empty_runtime
       (TUnion [TList (Some str_); int_])).1
    (TUnion [TClass "List_str_"; int_])
  = Some
      (GlobalScope.add_union typename attach_scope id empty_runtime
         (TUnion [TList (Some str_); int_])).2.
Proof.
  split; [cbn; discriminate|]. split; [reflexivity|].
  apply (union_func_name_collides typename attach_scope id empty_runtime
           [TList (Some str_); int_] [TClass "List_str_"; int_]).
  reflexivity.
Defined.

(** X9. The names of the two directions, of the registry and of the literal
    functions never coincide, whatever the type lists and literal values
    are. *)
Theorem mangled_prefixes_distinct (typename : Ty -> string)
    (args1 args2 : list Ty) (literal_args : list LitValue) :
  union_func_name typename UNION_SE_PREFIX args1
    <> union_func_name typename UNION_DE_PREFIX args2 /\
  union_func_name typename UNION_SE_PREFIX args1
    <> union_func_name typename "global" args2 /\
  union_func_name typename UNION_DE_PREFIX args1
    <> union_func_name typename "global" args2 /\
  literal_func_name typename literal_args
    <> union_func_name typename UNION_SE_PREFIX args1 /\
  literal_func_name typename literal_args
    <> union_func_name typename UNION_DE_PREFIX args1 /\
  literal_func_name typename literal_args
    <> union_func_name typename "global" args1.
Proof.
  unfold literal_func_name.
  rewrite !union_func_name_unfold.
  rewrite !re_sub_non_alnum_app.
  repeat split; intros H; cbn in H; discriminate H.
Qed.

(** Appending on the right reads as prepending after reversal. *)
Lemma list_ascii_of_string_app (a b : string) :
  list_ascii_of_string (a +:+ b)
  = list_ascii_of_string a ++ list_ascii_of_string b.
Proof.
  induction a as [|c a IH]; [reflexivity|].
  rewrite append_String. cbn [list_ascii_of_string]. now rewrite IH.
Qed.

Lemma append_eq_rev (a b s1 s2 : string) :
  a +:+ s1 = b +:+ s2 ->
  rev (list_ascii_of_string s1) ++ rev (list_ascii_of_string a)
  = rev (list_ascii_of_string s2) ++ rev (list_ascii_of_string b).
Proof.
  intros H. apply (f_equal list_ascii_of_string) in H.
  rewrite !list_ascii_of_string_app in H.
  apply (f_equal (@rev ascii)) in H. now rewrite !rev_app_distr in H.
Qed.

Lemma rev_list_ascii_inj (a b : string) :
  rev (list_ascii_of_string a) = rev (list_ascii_of_string b) -> a = b.
Proof.
  intros H. apply (f_equal (@rev ascii)) in H. rewrite !rev_involutive in H.
  apply (f_equal string_of_list_ascii) in H.
  now rewrite !string_of_list_ascii_of_string in H.
Qed.

(** X10. The mangled names [Field.from_dataclass] gives the functions of
    fields never collide: two names built from its purposes are equal only
    for the same field name and the same purpose. *)
Theorem mangle_injective_on_purposes
    (f1 f2 : dataclasses.Field) (p1 p2 : string) :
  In p1 purposes -> In p2 purposes ->
  Field.mangle f1 p1 = Field.mangle f2 p2 ->
  dataclasses.name f1 = dataclasses.name f2 /\ p1 = p2.
Proof.
  unfold Field.mangle, purposes. cbn [In].
  intros H1 H2 H. apply append_eq_rev in H.
  repeat match goal with
         | H : _ \/ _ |- _ => destruct H as [<-|H]
         | H : False |- _ => destruct H
         end;
    match type of H with
    | rev ?a ++ _ = rev ?b ++ _ =>
        let a' := eval vm_compute in (rev a) in
        let b' := eval vm_compute in (rev b) in
        change (rev a) with a' in H; change (rev b) with b' in H
    end;
    cbn [app] in H; try discriminate H;
    (split; [apply rev_list_ascii_inj; congruence|reflexivity]).
Qed.

Lemma mangle_injective_on_purposes_witness :
  In "skip_if" purposes /\ In "skip_if" purposes /\
  Field.mangle both_configured "skip_if" = Field.mangle both_configured "skip_if" /\
  dataclasses.name both_configured = dataclasses.name both_configured /\
  "skip_if" = "skip_if".
Proof.
  assert (H1 : In "skip_if" purposes) by (cbn; tauto).
  split; [exact H1|]. split; [exact H1|]. split; [reflexivity|].
  exact (mangle_injective_on_purposes both_configured both_configured
           "skip_if" "skip_if" H1 H1 eq_refl).
Defined.

(** ** Declaring fields and deriving their metadata *)

Lemma set_when_lookup (cond : bool) (key k : string) (o : Obj)
    (md : gmap string Obj) :
  set_when cond key o md !! k
  = if cond && String.eqb key k then Some o else md !! k.
Proof.
  unfold set_when. destruct cond; cbn [andb]; [|reflexivity].
  destruct (String.eqb key k) eqn:E.
  - apply String.eqb_eq in E as ->. apply lookup_insert_eq.
  - apply String.eqb_neq in E. now apply lookup_insert_ne.
Qed.

Lemma field_metadata_lookup (kw : Kw.t) (declared : dataclasses.Field) (k : string) :
  dataclasses.metadata (field kw declared) !! k =
    if truthy (Kw.flatten kw) && String.eqb "serde_flatten" k
    then Some (Kw.flatten kw)
    else if truthy (Kw.deserializer kw) && String.eqb "serde_deserializer" k
    then Some (Kw.deserializer kw)
    else if truthy (Kw.serializer kw) && String.eqb "serde_serializer" k
    then Some (Kw.serializer kw)
    else if is_not_None (Kw.skip_if_default kw) && String.eqb "serde_skip_if_default" k
    then Some (Kw.skip_if_default kw)
    else if is_not_None (Kw.skip_if_false kw) && String.eqb "serde_skip_if_false" k
    then Some (Kw.skip_if_false kw)
    else if is_not_None (Kw.skip_if kw) && String.eqb "serde_skip_if" k
    then Some (Kw.skip_if kw)
    else if is_not_None (Kw.skip kw) && String.eqb "serde_skip" k
    then Some (Kw.skip kw)
    else if is_not_None (Kw.alias kw) && String.eqb "serde_alias" k
    then Some (Kw.alias kw)
    else if is_not_None (Kw.rename kw) && String.eqb "serde_rename" k
    then Some (Kw.rename kw)
    else Kw.metadata kw !! k.
Proof.
  unfold field. cbn [dataclasses.metadata].
  now rewrite !set_when_lookup.
Qed.

Ltac lookup_in_field :=
  unfold get, get_or; rewrite !field_metadata_lookup;
  cbn [String.eqb Ascii.eqb Bool.eqb andb];
  rewrite ?andb_false_r, ?andb_true_r.

(** X11. A field declared with [field] and derived with
    [Field.from_dataclass] carries the keyword arguments: [rename], [alias]
    and [skip] hold the argument when it is not [None] and the entry of the
    caller's metadata otherwise; name, type and default are those of the
    declaration. *)
Theorem from_dataclass_of_field (kw : Kw.t) (declared : dataclasses.Field)
    (parent : option Ty) :
  let f := Field.from_dataclass (field kw declared) parent in
  Field.rename f =
    (if is_not_None (Kw.rename kw) then Kw.rename kw
     else get (Kw.metadata kw) "serde_rename") /\
  Field.alias f =
    (if is_not_None (Kw.alias kw) then Kw.alias kw
     else get_or (Kw.metadata kw) "serde_alias" (OValue (VList []))) /\
  Field.skip f =
    (if is_not_None (Kw.skip kw) then Kw.skip kw
     else get (Kw.metadata kw) "serde_skip") /\
  Field.name f = dataclasses.name declared /\
  Field.type f = dataclasses.type declared /\
  Field.default f = dataclasses.default declared /\
  Field.parent f = parent.
Proof.
  cbn zeta. unfold Field.from_dataclass.
  cbn [Field.rename Field.alias Field.skip Field.name Field.type Field.default
       Field.parent].
  repeat split; lookup_in_field;
    match goal with
    | |- context [is_not_None ?o] => destruct (is_not_None o); reflexivity
    end.
Qed.

(** X12. A function passed as [skip_if] to [field] is the skip predicate of
    the derived field, under the name of the field followed by [_skip_if],
    whatever the other arguments are; and a skip-on-false flag passed as
    [False] produces no predicate. *)
Theorem skip_if_of_field (kw : Kw.t) (declared : dataclasses.Field)
    (parent : option Ty) :
  (forall fn : Callable,
     Kw.skip_if kw = OFunction fn ->
     Field.skip_if (Field.from_dataclass (field kw declared) parent)
     = Some (mkFunc (OFunction fn) (dataclasses.name declared +:+ "_skip_if"))) /\
  (Kw.skip_if kw = OValue VNone ->
   Kw.skip_if_false kw = OValue (VBool false) ->
   Kw.skip_if_default kw = OValue VNone ->
   Kw.metadata kw !! "serde_skip_if" = None ->
   Kw.metadata kw !! "serde_skip_if_default" = None ->
   Field.skip_if (Field.from_dataclass (field kw declared) parent) = None).
Proof.
  split.
  - intros fn Hfn. unfold Field.from_dataclass. cbn [Field.skip_if].
    assert (Hget : get (dataclasses.metadata (field kw declared)) "serde_skip_if"
                   = OFunction fn).
    { lookup_in_field. rewrite Hfn. reflexivity. }
    rewrite Hget. reflexivity.
  - intros H1 H2 H3 H4 H5. unfold Field.from_dataclass. cbn [Field.skip_if].
    assert (G1 : get (dataclasses.metadata (field kw declared)) "serde_skip_if"
                 = OValue VNone).
    { lookup_in_field. rewrite H1, H4. reflexivity. }
    assert (G2 : get (dataclasses.metadata (field kw declared)) "serde_skip_if_false"
                 = OValue (VBool false)).
    { lookup_in_field. rewrite H2. reflexivity. }
    assert (G3 : get (dataclasses.metadata (field kw declared)) "serde_skip_if_default"
                 = OValue VNone).
    { lookup_in_field. rewrite H3, H5. reflexivity. }
    rewrite G1, G2, G3. reflexivity.
Qed.

(** X13. [field] only writes its own nine keys: every other entry of the
    caller's metadata is passed on unchanged, and no entry is ever removed. *)
Theorem field_keeps_foreign_metadata (kw : Kw.t) (declared : dataclasses.Field) :
  (forall k : string,
     ~ In k serde_keys ->
     dataclasses.metadata (field kw declared) !! k = Kw.metadata kw !! k) /\
  (forall k : string,
     is_Some (Kw.metadata kw !! k) ->
     is_Some (dataclasses.metadata (field kw declared) !! k)).
Proof.
  split.
  - intros k Hk. rewrite field_metadata_lookup.
    unfold serde_keys in Hk. cbn [In] in Hk.
    repeat match goal with
           | |- context [String.eqb ?a k] =>
               let E := fresh "E" in
               destruct (String.eqb a k) eqn:E;
                 [apply String.eqb_eq in E; exfalso; apply Hk; tauto|]
           end.
    now rewrite !andb_false_r.
  - intros k Hk. rewrite field_metadata_lookup.
    repeat match goal with
           | |- context [if ?c then _ else _] => destruct c; [eauto|]
           end.
    exact Hk.
Qed.

(** X14. Where the constructor of [dataclasses.Field] requires [kw_only]
    (Python 3.10 and later), [to_dataclass] raises [TypeError] for every
    field.  Where it takes the seven arguments of the call (Python up to
    3.9), [to_dataclass] undoes [from_dataclass]: for a raw field with a
    non-empty name the round trip gives the raw field back, whatever the
    parent, and on an empty name the assertion of [to_dataclass] fails. *)
Theorem to_dataclass_from_dataclass (f : dataclasses.Field) (parent : option Ty) :
  (forall self : Field.t, to_dataclass true self = RaisedTypeError) /\
  (dataclasses.name f <> "" ->
   to_dataclass false (Field.from_dataclass f parent) = Rebuilt f) /\
  (dataclasses.name f = "" ->
   to_dataclass false (Field.from_dataclass f parent) = RaisedAssertionError).
Proof.
  split; [reflexivity|].
  unfold to_dataclass, Field.from_dataclass.
  cbn [Field.name Field.type Field.default Field.default_factory Field.init
       Field.repr Field.hash Field.compare Field.metadata].
  split; intros H.
  - apply String.eqb_neq in H. rewrite H. now destruct f.
  - rewrite H. reflexivity.
Qed.

(** ** The wire name *)

Lemma truthy_is_not_None (o : Obj) : truthy o = true -> is_not_None o = true.
Proof. destruct o as [[]|]; cbn; congruence. Qed.

Lemma conv_without_case (casefy : string -> option (string -> string))
    (f : Field.t) :
  conv casefy f None =
    Ok (if truthy (Field.rename f) then Field.rename f
        else OValue (VStr (Field.name f))).
Proof.
  unfold conv. cbn.
  destruct (truthy (Field.rename f)) eqn:Hr; [|reflexivity].
  now rewrite (truthy_is_not_None _ Hr).
Qed.

(** X15. In [conv] a true [rename] overrides the name and its case
    conversion, but an unknown case name makes [conv] raise the configuration
    error even when a [rename] is given; without a [rename] the result is the
    converted name. *)
Theorem conv_rename_and_case (casefy : string -> option (string -> string))
    (f : Field.t) :
  (forall c : string,
     c <> "" -> casefy c = None ->
     conv casefy f (Some c) = Raise (SerdeError (unknown_case_message f))) /\
  (forall (c : string) (casef : string -> string),
     casefy c = Some casef -> truthy (Field.rename f) = true ->
     conv casefy f (Some c) = Ok (Field.rename f)) /\
  (forall (c : string) (casef : string -> string),
     c <> "" -> casefy c = Some casef -> truthy (Field.rename f) = false ->
     conv casefy f (Some c) = Ok (OValue (VStr (casef (Field.name f))))) /\
  conv casefy f None =
    Ok (if truthy (Field.rename f) then Field.rename f
        else OValue (VStr (Field.name f))).
Proof.
  pose proof truthy_is_not_None as Hnn.
  repeat split.
  - intros c Hc Hcase. unfold conv. apply String.eqb_neq in Hc.
    rewrite Hc, Hcase. reflexivity.
  - intros c casef Hcase Hr. unfold conv.
    destruct (String.eqb c ""); rewrite ?Hcase; cbn; rewrite Hr, (Hnn _ Hr);
      reflexivity.
  - intros c casef Hc Hcase Hr. unfold conv. apply String.eqb_neq in Hc.
    rewrite Hc, Hcase. cbn. rewrite Hr. reflexivity.
  - apply conv_without_case.
Qed.

(** [casefy] with the single conversion [upper]. *)
Lemma conv_rename_and_case_witness :
  conv (fun c => if String.eqb c "upper" then Some (fun s => s) else None)
    (Field.from_dataclass both_configured None) (Some "camelcase")
  = Raise (SerdeError (unknown_case_message (Field.from_dataclass both_configured None))).
Proof.
  apply (proj1 (conv_rename_and_case
                  (fun c => if String.eqb c "upper" then Some (fun s => s) else None)
                  (Field.from_dataclass both_configured None)));
    [discriminate|reflexivity].
Defined.

(** X16. The wire name of a derived field, asked for without a case, is the
    [serde_rename] entry when it is true and the declared name otherwise, and
    the query never raises; a non-empty [rename] given to [field] is the wire
    name. *)
Theorem conv_name_of_derived_field
    (casefy : string -> option (string -> string)) (parent : option Ty) :
  (forall raw : dataclasses.Field,
     conv_name casefy (Field.from_dataclass raw parent) None =
       Ok (if truthy (get (dataclasses.metadata raw) "serde_rename")
           then get (dataclasses.metadata raw) "serde_rename"
           else OValue (VStr (dataclasses.name raw)))) /\
  (forall (kw : Kw.t) (declared : dataclasses.Field) (r : string),
     Kw.rename kw = OValue (VStr r) -> r <> "" ->
     conv_name casefy (Field.from_dataclass (field kw declared) parent) None
     = Ok (OValue (VStr r))).
Proof.
  assert (Hgen : forall raw : dataclasses.Field,
     conv_name casefy (Field.from_dataclass raw parent) None =
       Ok (if truthy (get (dataclasses.metadata raw) "serde_rename")
           then get (dataclasses.metadata raw) "serde_rename"
           else OValue (VStr (dataclasses.name raw)))).
  { intros raw. unfold conv_name. cbn [truthy_str].
    unfold Field.from_dataclass at 1. cbn [Field.case].
    rewrite conv_without_case.
    reflexivity. }
  split; [exact Hgen|].
  intros kw declared r Hr Hne. rewrite Hgen.
  assert (Hget : get (dataclasses.metadata (field kw declared)) "serde_rename"
                 = OValue (VStr r)).
  { lookup_in_field. rewrite Hr. reflexivity. }
  rewrite Hget. cbn. apply String.eqb_neq in Hne. now rewrite Hne.
Qed.

(** ** Does a class still need the decorator *)

Lemma mem_In (s : string) (l : list string) : mem s l = true <-> In s l.
Proof.
  unfold mem. rewrite existsb_exists. split.
  - intros (x & Hx & E). apply String.eqb_eq in E. now subst.
  - intros H. exists s. split; [exact H|apply String.eqb_refl].
Qed.

Lemma all_annotated_are_fields (annotations field_names : list string) :
  existsb (fun field_name => negb (mem field_name field_names)) annotations = false
  <-> forall a, In a annotations -> In a field_names.
Proof.
  split.
  - intros H a Ha. apply mem_In.
    destruct (mem a field_names) eqn:E; [reflexivity|].
    assert (existsb (fun n => negb (mem n field_names)) annotations = true).
    { apply existsb_exists. exists a. now rewrite E. }
    congruence.
  - intros H. apply not_true_is_false. intros Hex.
    apply existsb_exists in Hex as (a & Ha & E).
    apply H, mem_In in Ha. rewrite Ha in E. discriminate.
Qed.

(** X17. For a class whose annotation keys and field names are free of
    repetition, [should_impl_dataclass] answers [False] exactly when the
    class is a dataclass and either has no annotations or its annotations
    name exactly its fields. *)
Theorem should_impl_dataclass_false_iff (cls : ClassInfo) :
  NoDup (info_annotations cls) -> NoDup (info_field_names cls) ->
  should_impl_dataclass cls = false <->
  info_is_dataclass cls = true /\
  (info_annotations cls = [] \/
   Permutation (info_annotations cls) (info_field_names cls)).
Proof.
  destruct cls as [dc ann fns]. cbn [info_is_dataclass info_annotations
    info_field_names]. intros Hann Hfns. unfold should_impl_dataclass.
  cbn [info_is_dataclass info_annotations info_field_names].
  destruct dc; cbn [negb]; [|split; [discriminate|intros [? _]; discriminate]].
  destruct ann as [|a ann]; [split; auto|].
  change ((length (a :: ann) =? 0)%nat) with false. cbv iota.
  destruct (Nat.eqb_spec (length (a :: ann)) (length fns)) as [Hlen|Hlen];
    cbn [negb]; cbv iota.
  - destruct (existsb _ (a :: ann)) eqn:Hex; cbv iota.
    + split; [discriminate|]. intros [_ [H|Hp]]; [discriminate|].
      assert (existsb (fun n => negb (mem n fns)) (a :: ann) = false).
      { apply all_annotated_are_fields. intros x Hx.
        eapply Permutation_in; eassumption. }
      congruence.
    + split; [|reflexivity]. intros _. split; [reflexivity|right].
      apply submseteq_length_Permutation; [|lia].
      apply NoDup_submseteq; [exact Hann|].
      intros x Hx. apply list_elem_of_In. apply list_elem_of_In in Hx.
      now apply (proj1 (all_annotated_are_fields (a :: ann) fns) Hex).
  - split; [discriminate|]. intros [_ [H|Hp]]; [discriminate|].
    apply Permutation_length in Hp. congruence.
Qed.

(** X18. A dataclass with annotations of its own, free of repetition, that
    has a field it does not annotate itself (an inherited field it does not
    override) is reported as still needing the decorator, also when it is a
    decorated dataclass with exactly these fields. *)
Theorem should_impl_dataclass_inherited (cls : ClassInfo) (inherited : string) :
  info_is_dataclass cls = true ->
  info_annotations cls <> [] ->
  NoDup (info_annotations cls) ->
  In inherited (info_field_names cls) ->
  ~ In inherited (info_annotations cls) ->
  should_impl_dataclass cls = true.
Proof.
  destruct cls as [dc ann fns].
  cbn [info_is_dataclass info_annotations info_field_names].
  intros -> Hne Hann Hin Hnot. unfold should_impl_dataclass.
  cbn [info_is_dataclass info_annotations info_field_names negb].
  destruct ann as [|a ann]; [congruence|].
  change ((length (a :: ann) =? 0)%nat) with false. cbv iota.
  destruct (Nat.eqb_spec (length (a :: ann)) (length fns)) as [Hlen|Hlen];
    cbn [negb]; cbv iota; [|reflexivity].
  destruct (existsb (fun n => negb (mem n fns)) (a :: ann)) eqn:Hex;
    [reflexivity|exfalso].
  assert (Hperm : Permutation (a :: ann) fns).
  { apply submseteq_length_Permutation; [|lia].
    apply NoDup_submseteq; [exact Hann|].
    intros x Hx. apply list_elem_of_In. apply list_elem_of_In in Hx.
    now apply (proj1 (all_annotated_are_fields (a :: ann) fns) Hex). }
  apply Hnot. eapply Permutation_in; [symmetry; exact Hperm|exact Hin].
Qed.

(** X19. A class built by [make_dataclass] never needs the decorator again,
    whatever its fields are, so the [serde] decorator applied to a wrapper
    class runs the two registrations only. *)
Theorem should_impl_dataclass_make_dataclass
    (cls_name : string) (fields : list (string * Ty)) :
  should_impl_dataclass (info_of (GlobalScope.make_dataclass cls_name fields)) = false.
Proof.
  unfold should_impl_dataclass, info_of, GlobalScope.make_dataclass.
  cbn [info_is_dataclass info_annotations info_field_names
       GlobalScope.class_fields negb].
  destruct (length (map fst fields) =? 0)%nat; [reflexivity|].
  rewrite Nat.eqb_refl. cbn [negb].
  assert (H : existsb (fun n => negb (mem n (map fst fields))) (map fst fields)
              = false)
    by (apply all_annotated_are_fields; auto).
  now rewrite H.
Qed.

(** The doctests of [should_impl_dataclass]: the decorated class [Base] with
    the field [a], and the undecorated subclass [Derived] annotating [b]. *)
Example should_impl_dataclass_doctest :
  should_impl_dataclass (mkClassInfo true ["a"] ["a"]) = false /\
  should_impl_dataclass (mkClassInfo true ["b"] ["a"]) = true.
Proof. split; reflexivity. Qed.

(** ** Banner lines *)

Lemma spaces_length (n : nat) : String.length (spaces n) = n.
Proof. induction n as [|n IH]; cbn; congruence. Qed.

(** X20. [_justify] centres a text of at most fifty characters in fifty
    columns: it puts blanks before it such that the margin left on the right
    is as wide or one wider; a text of forty-nine characters or more is
    returned as it is, and the result does not depend on the [length]
    argument. *)
Theorem justify_centres (s : string) (length : Z) :
  (exists left : nat,
     _justify s length = spaces left +:+ s /\
     ((String.length s <= 50)%nat ->
      (2 * left <= 50 - String.length s <= 2 * left + 1)%nat)) /\
  ((49 <= String.length s)%nat -> _justify s length = s) /\
  _justify s length = _justify s 50.
Proof.
  unfold _justify.
  set (n := String.length s).
  set (w := Z.quot (50 - Z.of_nat n) 2).
  assert (Hw : (0 <= 50 - Z.of_nat n -> 2 * w <= 50 - Z.of_nat n <= 2 * w + 1)%Z).
  { intros Hpos. subst w. rewrite Z.quot_div_nonneg by lia.
    pose proof (Z.div_mod (50 - Z.of_nat n) 2 ltac:(lia)).
    pose proof (Z.mod_pos_bound (50 - Z.of_nat n) 2 ltac:(lia)). lia. }
  assert (Hneg : (50 - Z.of_nat n <= 1 -> w <= 0)%Z).
  { intros Hle. subst w.
    pose proof (Z.quot_le_mono (50 - Z.of_nat n)%Z 1%Z 2%Z ltac:(lia) Hle) as H.
    change (Z.quot 1 2) with 0%Z in H. exact H. }
  split; [|split].
  - eexists. split; [reflexivity|]. intros Hn.
    destruct (w >? 0)%Z eqn:E; lia.
  - intros Hn. destruct (w >? 0)%Z eqn:E; [lia|reflexivity].
  - reflexivity.
Qed.

(** ** Function synthesis *)

Section SynthesisFacts.
Variable exec : string -> gmap string PyFunc -> result (gmap string PyFunc).
Variable format_str : string -> result string.

(** X21. When [add_func] returns, the scope holds under the function name
    what the executed code left under that name in the globals, replacing an
    earlier function of that name; every other function of the scope and the
    class of the scope are unchanged, and outside debug mode no source text
    is retained. *)
Theorem add_func_registers (debug : bool) (serde_scope : Scope)
    (scope_code : gmap string string) (func_name func_code : string)
    (globals : gmap string PyFunc)
    (serde_scope' : Scope) (scope_code' : gmap string string)
    (globals' : gmap string PyFunc) :
  add_func exec format_str debug serde_scope scope_code func_name func_code globals
  = Ok (serde_scope', scope_code', globals') ->
  is_Some (globals' !! func_name) /\
  funcs serde_scope' !! func_name = globals' !! func_name /\
  (forall k, k <> func_name -> funcs serde_scope' !! k = funcs serde_scope !! k) /\
  cls serde_scope' = cls serde_scope /\
  (forall k, k <> func_name -> scope_code' !! k = scope_code !! k) /\
  (debug = false -> scope_code' = scope_code).
Proof.
  unfold add_func, gen.
  destruct (exec _ globals) as [g|e]; cbn; [|discriminate].
  destruct (g !! func_name) as [func|] eqn:Hf; cbn; [|discriminate].
  intros [= <- <- <-]. cbn [funcs cls]. rewrite Hf.
  repeat split.
  - eauto.
  - apply lookup_insert_eq.
  - intros k Hk. now apply lookup_insert_ne.
  - intros k Hk. destruct debug; [now apply lookup_insert_ne|reflexivity].
  - now intros ->.
Qed.

(** A failure of the formatter is ignored: in debug mode with a failing
    formatter [gen] executes and returns the text it was given, as it does
    outside debug mode; with a formatter that succeeds it executes and
    returns the formatted text. *)
Theorem gen_ignores_formatter_failure (code : string)
    (globals : gmap string PyFunc) :
  (forall e, format_str code = Raise e ->
     gen exec format_str true code globals = gen exec format_str false code globals) /\
  (forall formatted, format_str code = Ok formatted ->
     gen exec format_str true code globals
     = gen exec format_str false formatted globals) /\
  (forall globals', exec code globals = Ok globals' ->
     gen exec format_str false code globals = Ok (code, globals')).
Proof.
  unfold gen. repeat split.
  - intros e ->. reflexivity.
  - intros formatted ->. reflexivity.
  - intros globals' ->. reflexivity.
Qed.

(** When the executed code does not define the function name,
    [add_func] raises [KeyError] for that name; when [exec] raises,
    [add_func] raises the same exception. *)
Theorem add_func_fails (serde_scope : Scope) (scope_code : gmap string string)
    (func_name func_code : string) (globals : gmap string PyFunc) :
  (forall globals', exec func_code globals = Ok globals' ->
     globals' !! func_name = None ->
     add_func exec format_str false serde_scope scope_code func_name func_code globals
     = Raise (KeyError func_name)) /\
  (forall e, exec func_code globals = Raise e ->
     add_func exec format_str false serde_scope scope_code func_name func_code globals
     = Raise e).
Proof.
  unfold add_func, gen. split.
  - intros globals' -> Hnone. cbn. now rewrite Hnone.
  - intros e ->. reflexivity.
Qed.

(** X22. A type check function registered through [add_func] governs the
    record branch of the instance check: with the updated scope attached to
    a record type, the check is [False] when the registered function raises
    on the value and the nominal check when it returns. *)
Theorem add_func_typecheck_then_is_instance (debug : bool) (serde_scope : Scope)
    (scope_code : gmap string string) (func_code : string)
    (globals : gmap string PyFunc)
    (serde_scope' : Scope) (scope_code' : gmap string string)
    (globals' : gmap string PyFunc) (c : string) (obj : Value) :
  add_func exec format_str debug serde_scope scope_code TYPE_CHECK func_code globals
  = Ok (serde_scope', scope_code', globals') ->
  exists func : PyFunc,
    globals' !! TYPE_CHECK = Some func /\
    is_instance obj (TDataclass c (Some serde_scope')) =
      match func obj with
      | Ok _ => Ok (isinstance obj c)
      | Raise _ => Ok false
      end.
Proof.
  unfold add_func, gen.
  destruct (exec _ globals) as [g|e]; cbn -[TYPE_CHECK]; [|discriminate].
  destruct (g !! TYPE_CHECK) as [func|] eqn:Hf; cbn -[TYPE_CHECK]; [|discriminate].
  intros [= <- <- <-]. exists func. split; [exact Hf|].
  cbn [is_instance]. unfold dataclass_instance, call_func. cbn [funcs].
  now rewrite lookup_insert_eq.
Qed.

End SynthesisFacts.

(** ** The registry: invariant and isolation *)

Section RegistryInvariant.
Variable typename : Ty -> string.
Variable serialize deserialize : GlobalScope.ClassObject -> GlobalScope.ClassObject.

(** X23. [add_union] keeps the registry well formed; the reference it returns
    is new, the class objects that existed stay as they were, and so does
    every registry entry under another name. *)
Theorem add_union_preserves_registry (rt : GlobalScope.Runtime) (cls : Ty) :
  registry_wf rt ->
  let added := GlobalScope.add_union typename serialize deserialize rt cls in
  registry_wf added.1 /\
  GlobalScope.heap rt !! added.2 = None /\
  (forall a, a <> added.2 ->
     GlobalScope.heap added.1 !! a = GlobalScope.heap rt !! a) /\
  (forall k, k <> union_func_name typename "global" (compat.type_args cls) ->
     GlobalScope.classes (GlobalScope.GLOBAL_SCOPE added.1) !! k
     = GlobalScope.classes (GlobalScope.GLOBAL_SCOPE rt) !! k).
Proof.
  intros [Hheap Hreg]. cbn zeta. unfold GlobalScope.add_union.
  cbn [fst snd GlobalScope.heap GlobalScope.next_addr GlobalScope.GLOBAL_SCOPE
       GlobalScope.classes].
  assert (Hfresh : GlobalScope.heap rt !! GlobalScope.next_addr rt = None).
  { destruct (GlobalScope.heap rt !! GlobalScope.next_addr rt) eqn:E;
      [|reflexivity].
    assert (GlobalScope.next_addr rt < GlobalScope.next_addr rt)%nat
      by (apply Hheap; eauto).
    lia. }
  repeat split.
  - intros a Ha. cbn [GlobalScope.heap GlobalScope.next_addr] in *.
    destruct (decide (a = GlobalScope.next_addr rt)) as [->|Hne]; [lia|].
    rewrite lookup_insert_ne in Ha by congruence.
    specialize (Hheap a Ha). lia.
  - intros k a Hk.
    cbn [GlobalScope.heap GlobalScope.GLOBAL_SCOPE GlobalScope.classes] in *.
    destruct (decide (a = GlobalScope.next_addr rt)) as [->|Hne].
    + rewrite lookup_insert_eq. eauto.
    + rewrite lookup_insert_ne by congruence.
      destruct (decide (k = union_func_name typename "global" (compat.type_args cls)))
        as [->|Hk'].
      * rewrite lookup_insert_eq in Hk. congruence.
      * rewrite lookup_insert_ne in Hk by congruence. eauto.
  - exact Hfresh.
  - intros a Ha. now apply lookup_insert_ne.
  - intros k Hk. now apply lookup_insert_ne.
Qed.

(** X24. [add_union] does not deduplicate by itself: called twice for the
    same union it builds two class objects under different references, and
    the registry afterwards answers with the second. *)
Theorem add_union_twice (rt : GlobalScope.Runtime) (cls : Ty) :
  let first := GlobalScope.add_union typename serialize deserialize rt cls in
  let second := GlobalScope.add_union typename serialize deserialize first.1 cls in
  first.2 <> second.2 /\
  GlobalScope.get_union typename second.1 cls = Some second.2 /\
  GlobalScope.heap second.1 !! first.2 = GlobalScope.heap first.1 !! first.2 /\
  is_Some (GlobalScope.heap second.1 !! first.2).
Proof.
  cbn zeta. unfold GlobalScope.add_union, GlobalScope.get_union.
  cbn [fst snd GlobalScope.heap GlobalScope.next_addr GlobalScope.GLOBAL_SCOPE
       GlobalScope.classes].
  repeat split.
  - lia.
  - apply lookup_insert_eq.
  - apply lookup_insert_ne. lia.
  - rewrite lookup_insert_ne by lia. rewrite lookup_insert_eq. eauto.
Qed.

End RegistryInvariant.

(** ** Instances *)


Lemma skip_if_of_field_witness :
  Kw.skip_if id_kw = OFunction (fn_user "is_zero") /\
  Field.skip_if (Field.from_dataclass (field id_kw declared_id) None)
  = Some (mkFunc (OFunction (fn_user "is_zero")) "id_skip_if") /\
  Field.skip_if (Field.from_dataclass (field flag_off_kw declared_id) None) = None.
Proof.
  split; [reflexivity|]. split.
  - apply (proj1 (skip_if_of_field id_kw declared_id None)). reflexivity.
  - apply (proj2 (skip_if_of_field flag_off_kw declared_id None)); reflexivity.
Defined.

Lemma field_keeps_foreign_metadata_witness :
  ~ In "doc" serde_keys /\
  dataclasses.metadata (field id_kw declared_id) !! "doc"
  = Kw.metadata id_kw !! "doc".
Proof.
  assert (H : ~ In "doc" serde_keys).
  { cbn. intros Hin.
    repeat match goal with
           | H : _ \/ _ |- _ => destruct H as [H|H]; [discriminate H|]
           end.
    exact Hin. }
  split; [exact H|].
  exact (proj1 (field_keeps_foreign_metadata id_kw declared_id) "doc" H).
Defined.

Lemma to_dataclass_from_dataclass_witness :
  dataclasses.name both_configured <> "" /\
  to_dataclass false (Field.from_dataclass both_configured (Some int_))
  = Rebuilt both_configured /\
  to_dataclass true (Field.from_dataclass both_configured (Some int_))
  = RaisedTypeError.
Proof.
  split; [discriminate|]. split.
  - apply (proj1 (proj2 (to_dataclass_from_dataclass both_configured (Some int_)))).
    discriminate.
  - apply (proj1 (to_dataclass_from_dataclass both_configured (Some int_))).
Defined.

Lemma conv_name_of_derived_field_witness :
  Kw.rename id_kw = OValue (VStr "ID") /\ "ID" <> "" /\
  conv_name (fun _ => None) (Field.from_dataclass (field id_kw declared_id) None) None
  = Ok (OValue (VStr "ID")).
Proof.
  split; [reflexivity|]. split; [discriminate|].
  apply (proj2 (conv_name_of_derived_field (fun _ => None) None)
           id_kw declared_id "ID"); [reflexivity|discriminate].
Defined.

Lemma should_impl_dataclass_false_iff_witness :
  NoDup ["a"; "b"] /\ NoDup ["b"; "a"] /\
  (should_impl_dataclass (mkClassInfo true ["a"; "b"] ["b"; "a"]) = false <->
   true = true /\ (["a"; "b"] = [] \/ Permutation ["a"; "b"] ["b"; "a"])).
Proof.
  assert (H1 : NoDup ["a"; "b"]).
  { apply (bool_decide_unpack _). vm_compute. exact I. }
  assert (H2 : NoDup ["b"; "a"]).
  { apply (bool_decide_unpack _). vm_compute. exact I. }
  split; [exact H1|]. split; [exact H2|].
  exact (should_impl_dataclass_false_iff
           (mkClassInfo true ["a"; "b"] ["b"; "a"]) H1 H2).
Defined.

Lemma should_impl_dataclass_inherited_witness :
  NoDup ["a"; "c"] /\ In "b" ["a"; "b"; "c"] /\ ~ In "b" ["a"; "c"] /\
  should_impl_dataclass (mkClassInfo true ["a"; "c"] ["a"; "b"; "c"]) = true.
Proof.
  assert (H1 : NoDup ["a"; "c"]).
  { apply (bool_decide_unpack _). vm_compute. exact I. }
  assert (H2 : In "b" ["a"; "b"; "c"]) by (cbn; tauto).
  assert (H3 : ~ In "b" ["a"; "c"]).
  { cbn. intros [H|[H|H]]; [discriminate H|discriminate H|exact H]. }
  split; [exact H1|]. split; [exact H2|]. split; [exact H3|].
  apply (should_impl_dataclass_inherited
           (mkClassInfo true ["a"; "c"] ["a"; "b"; "c"]) "b");
    [reflexivity|discriminate|exact H1|exact H2|exact H3].
Defined.

Lemma justify_centres_witness :
  (String.length "Functions generated by pyserde" <= 50)%nat /\
  exists left : nat,
    _justify "Functions generated by pyserde" 50
    = spaces left +:+ "Functions generated by pyserde" /\
    (2 * left <= 50 - String.length "Functions generated by pyserde"
     <= 2 * left + 1)%nat.
Proof.
  assert (Hn : (String.length "Functions generated by pyserde" <= 50)%nat)
    by (cbn; lia).
  split; [exact Hn|].
  destruct (proj1 (justify_centres "Functions generated by pyserde" 50))
    as (left & Heq & Hmargin).
  exists left. split; [exact Heq|exact (Hmargin Hn)].
Defined.

Lemma add_func_registers_witness :
  add_func (exec_defining TYPE_CHECK only_int) format_fails false empty_scope ∅
    TYPE_CHECK "def typecheck(self): ..." ∅
  = Ok (mkScope "Foo" (<[TYPE_CHECK := only_int]> ∅), ∅,
        <[TYPE_CHECK := only_int]> ∅) /\
  funcs (mkScope "Foo" (<[TYPE_CHECK := only_int]> ∅)) !! TYPE_CHECK
  = (<[TYPE_CHECK := only_int]> ∅ : gmap string PyFunc) !! TYPE_CHECK.
Proof.
  assert (H : add_func (exec_defining TYPE_CHECK only_int) format_fails false
                empty_scope ∅ TYPE_CHECK "def typecheck(self): ..." ∅
              = Ok (mkScope "Foo" (<[TYPE_CHECK := only_int]> ∅), ∅,
                    <[TYPE_CHECK := only_int]> ∅)) by reflexivity.
  split; [exact H|].
  exact (proj1 (proj2 (add_func_registers _ _ _ _ _ _ _ _ _ _ _ H))).
Defined.

Lemma gen_ignores_formatter_failure_witness :
  format_fails "x = 1" = Raise TypeError /\
  gen exec_nothing format_fails true "x = 1" ∅
  = gen exec_nothing format_fails false "x = 1" ∅.
Proof.
  split; [reflexivity|].
  apply (proj1 (gen_ignores_formatter_failure exec_nothing format_fails "x = 1" ∅)
           TypeError).
  reflexivity.
Defined.

Lemma add_func_fails_witness :
  exec_nothing "x = 1" ∅ = Ok ∅ /\
  (∅ : gmap string PyFunc) !! "to_dict" = None /\
  add_func exec_nothing format_fails false empty_scope ∅ "to_dict" "x = 1" ∅
  = Raise (KeyError "to_dict").
Proof.
  split; [reflexivity|]. split; [reflexivity|].
  apply (proj1 (add_func_fails exec_nothing format_fails empty_scope ∅
                  "to_dict" "x = 1" ∅) ∅); reflexivity.
Defined.

Lemma add_func_typecheck_then_is_instance_witness :
  add_func (exec_defining TYPE_CHECK only_int) format_fails false empty_scope ∅
    TYPE_CHECK "def typecheck(self): ..." ∅
  = Ok (mkScope "Foo" (<[TYPE_CHECK := only_int]> ∅), ∅,
        <[TYPE_CHECK := only_int]> ∅) /\
  exists func : PyFunc,
    (<[TYPE_CHECK := only_int]> ∅ : gmap string PyFunc) !! TYPE_CHECK = Some func /\
    is_instance (VStr "x")
      (TDataclass "Foo" (Some (mkScope "Foo" (<[TYPE_CHECK := only_int]> ∅)))) =
      match func (VStr "x") with
      | Ok _ => Ok (isinstance (VStr "x") "Foo")
      | Raise _ => Ok false
      end.
Proof.
  assert (H : add_func (exec_defining TYPE_CHECK only_int) format_fails false
                empty_scope ∅ TYPE_CHECK "def typecheck(self): ..." ∅
              = Ok (mkScope "Foo" (<[TYPE_CHECK := only_int]> ∅), ∅,
                    <[TYPE_CHECK := only_int]> ∅)) by reflexivity.
  split; [exact H|].
  exact (add_func_typecheck_then_is_instance _ _ _ _ _ _ _ _ _ _ "Foo" (VStr "x") H).
Defined.

Lemma add_union_preserves_registry_witness :
  registry_wf empty_runtime /\
  registry_wf
    (GlobalScope.add_union typename attach_scope id empty_runtime
       (TUnion [int_; str_])).1.
Proof.
  assert (H : registry_wf empty_runtime).
  { split; cbn.
    - intros a [x Hx]. rewrite lookup_empty in Hx. discriminate.
    - intros k a Hk. rewrite lookup_empty in Hk. discriminate. }
  split; [exact H|].
  exact (proj1 (add_union_preserves_registry typename attach_scope id
                  empty_runtime (TUnion [int_; str_]) H)).
Defined.
